(** * The sentinel's authentication and metering pipeline (package sentinel)

    A shallow embedding of the proof codecs ([parseArkAuth],
    [parseContractAuth], [ArkAuth.String]), the proof validators, the rate
    limiter registry ([isRateLimited]) and the access decision pipeline
    ([paidTier], [freeTier], [auth]), together with the properties the
    specification states about them.

    Conventions.  Go's [uint64] and [int64] are [Z] with the wrap-around
    written out; a Go [string] is a [string] (a sequence of 8-bit
    characters); [[]byte] is [list Byte.byte]; a Go [map[string]T] is a
    [gmap string T]; a function returning [(T, error)] returns a pair whose
    second component is [option error] ([None] is Go's [nil]); a run-time
    panic is the [Panic] outcome.  The state the handler works on (the
    proxy's stores and the package-level limiter map) is passed in and handed
    back; the clock is the explicit instant [now]. *)

From Stdlib Require Import ZArith Ascii String List Bool Lia.
From stdpp Require Import base gmap strings list.

Local Open Scope Z_scope.

(** ** Outcomes and errors *)

(** A Go call either returns or panics. *)
Inductive outcome (A : Type) : Type :=
| Return (a : A)
| Panic (msg : string).
Arguments Return {A} a.
Arguments Panic {A} msg.

(** [strconv.ErrSyntax] and [strconv.ErrRange]. *)
Inductive strconvErr : Type := ErrSyntax | ErrRange.

(** The error values the pipeline produces: [*strconv.NumError] (with the
    function and the input that failed), the two errors of [encoding/hex],
    [fmt.Errorf] with a formatted message, [fmt.Errorf("...: %w", err)], and
    an error handed back by a collaborator. *)
Inductive error : Type :=
| NumError (Func Num : string) (Err : strconvErr)
| InvalidByteError (b : ascii)
| ErrLength
| Errorf (msg : string)
| Wrapf (msg : string) (e : error)
| External (msg : string).

(** ** Machine integers *)

Definition maxUint64 : Z := 2 ^ 64 - 1.
Definition minInt64 : Z := - 2 ^ 63.
Definition maxInt64 : Z := 2 ^ 63 - 1.

Definition is_uint64 (n : Z) : Prop := 0 <= n <= maxUint64.
Definition is_int64 (n : Z) : Prop := minInt64 <= n <= maxInt64.

(** Conversion to [int64] and [int64] arithmetic keep the low 64 bits. *)
Definition wrap_int64 (n : Z) : Z := (n + 2 ^ 63) mod 2 ^ 64 - 2 ^ 63.

Definition mul_int64 (a b : Z) : Z := wrap_int64 (a * b).

(** ** strconv *)

Module strconv.

Definition code (c : ascii) : Z := Z.of_N (N_of_ascii c).

Definition chr (n : Z) : ascii := ascii_of_N (Z.to_N n).

(** [lower(c)]: [c | ('x' - 'X')]. *)
Definition lower (c : Z) : Z := Z.lor c 32.

Definition syntaxError (fn str : string) : error := NumError fn str ErrSyntax.
Definition rangeError (fn str : string) : error := NumError fn str ErrRange.

(** The digit loop of [ParseUint(s, 10, 64)] from accumulator [n]; [s0] is
    the whole argument, quoted in the error. *)
Fixpoint parseUint_loop (s0 : string) (n : Z) (s : string) : Z * option error :=
  match s with
  | EmptyString => (n, None)
  | String c rest =>
      let b := code c in
      let d :=
        if (48 <=? b) && (b <=? 57) then Some (b - 48)
        else if (97 <=? lower b) && (lower b <=? 122) then Some (lower b - 97 + 10)
        else None in
      match d with
      | None => (0, Some (syntaxError "ParseUint" s0))
      | Some d =>
          if 10 <=? d then (0, Some (syntaxError "ParseUint" s0))
          else if maxUint64 / 10 + 1 <=? n then
            (maxUint64, Some (rangeError "ParseUint" s0))
          else
            let n1 := n * 10 + d in
            if maxUint64 <? n1 then (maxUint64, Some (rangeError "ParseUint" s0))
            else parseUint_loop s0 n1 rest
      end
  end.

(** [strconv.ParseUint(s, 10, 64)]. *)
Definition ParseUint (s : string) : Z * option error :=
  match s with
  | EmptyString => (0, Some (syntaxError "ParseUint" s))
  | _ => parseUint_loop s 0 s
  end.

(** [strconv.ParseInt(s, 10, 64)]. *)
Definition ParseInt (s0 : string) : Z * option error :=
  match s0 with
  | EmptyString => (0, Some (syntaxError "ParseInt" s0))
  | String c rest =>
      let '(neg, s) :=
        if Ascii.eqb c "+" then (false, rest)
        else if Ascii.eqb c "-" then (true, rest)
        else (false, s0) in
      let '(un, err) := ParseUint s in
      match err with
      | Some (NumError _ _ ErrSyntax) => (0, Some (syntaxError "ParseInt" s0))
      | _ =>
          let cutoff := 2 ^ 63 in
          if negb neg && (cutoff <=? un) then
            (cutoff - 1, Some (rangeError "ParseInt" s0))
          else if neg && (cutoff <? un) then
            (- cutoff, Some (rangeError "ParseInt" s0))
          else
            let n := wrap_int64 un in
            (if neg then wrap_int64 (- n) else n, None)
      end
  end.

(** The decimal digits of [n], most significant first, put before [acc];
    [fuel] bounds the number of digits. *)
Fixpoint digits (fuel : nat) (n : Z) (acc : string) : string :=
  match fuel with
  | O => acc
  | S fuel' =>
      let acc' := String (chr (48 + n mod 10)) acc in
      if n <? 10 then acc' else digits fuel' (n / 10) acc'
  end.

(** [strconv.FormatUint(n, 10)], which is also [%d] at a [uint64]: a
    [uint64] has at most 20 decimal digits. *)
Definition FormatUint (n : Z) : string := digits 20 n "".

(** [strconv.FormatInt(n, 10)], which is also [%d] at an [int64]. *)
Definition FormatInt (n : Z) : string :=
  if n <? 0 then String "-" (FormatUint (- n)) else FormatUint n.

End strconv.

(** ** encoding/hex *)

Module hex.

Definition hextable : string := "0123456789abcdef".

Definition byte_val (b : Byte.byte) : Z := Z.of_N (Byte.to_N b).

Definition byte_of_Z (n : Z) : Byte.byte := byte_of_ascii (ascii_of_N (Z.to_N n)).

(** [hextable[i]]. *)
Definition hexdigit (i : Z) : ascii :=
  match String.get (Z.to_nat i) hextable with
  | Some c => c
  | None => "0"%char
  end.

(** [hex.EncodeToString]: two lower-case digits per byte. *)
Fixpoint EncodeToString (src : list Byte.byte) : string :=
  match src with
  | [] => ""
  | v :: rest =>
      String (hexdigit (Z.shiftr (byte_val v) 4))
        (String (hexdigit (Z.land (byte_val v) 15)) (EncodeToString rest))
  end.

(** [reverseHexTable[c]]: the value of a hexadecimal digit of either case,
    255 for any other character. *)
Definition reverseHexTable (c : ascii) : Z :=
  let b := strconv.code c in
  if (48 <=? b) && (b <=? 57) then b - 48
  else if (97 <=? b) && (b <=? 102) then b - 97 + 10
  else if (65 <=? b) && (b <=? 70) then b - 65 + 10
  else 255.

(** [hex.DecodeString]: the bytes decoded so far come back with the error. *)
Fixpoint DecodeString (s : string) : list Byte.byte * option error :=
  match s with
  | EmptyString => ([], None)
  | String p EmptyString =>
      if 15 <? reverseHexTable p then ([], Some (InvalidByteError p))
      else ([], Some ErrLength)
  | String p (String q rest) =>
      let a := reverseHexTable p in
      let b := reverseHexTable q in
      if 15 <? a then ([], Some (InvalidByteError p))
      else if 15 <? b then ([], Some (InvalidByteError q))
      else
        let '(bs, err) := DecodeString rest in
        (byte_of_Z (Z.lor (Z.shiftl a 4) b) :: bs, err)
  end.

End hex.

(** ** strings *)

Module strings.

(** [s[:m]] and [s[m+1:]] for [m = strings.Index(s, sep)] with a
    one-character separator; [None] when the separator does not occur. *)
Fixpoint cut (sep : ascii) (s : string) : option (string * string) :=
  match s with
  | EmptyString => None
  | String c rest =>
      if Ascii.eqb c sep then Some (EmptyString, rest)
      else
        match cut sep rest with
        | Some (a, b) => Some (String c a, b)
        | None => None
        end
  end.

(** [strings.SplitN(s, sep, n)] for [n > 0] and a one-character separator:
    at most [n] parts, the last one the unsplit remainder. *)
Fixpoint SplitN (s : string) (sep : ascii) (n : nat) : list string :=
  match n with
  | O => []
  | S O => [s]
  | S n' =>
      match cut sep s with
      | Some (a, rest) => a :: SplitN rest sep n'
      | None => [s]
      end
  end.

(** [strings.Split(s, sep)] with a one-character separator. *)
Definition Split (s : string) (sep : ascii) : list string :=
  SplitN s sep (S (String.length s)).

(** ASCII case folding, as [strings.EqualFold] does on ASCII text.  On
    text with letters outside ASCII Go also applies Unicode simple folding,
    which is not modelled: there [EqualFold] below compares the bytes. *)
Definition fold (c : ascii) : ascii :=
  let b := strconv.code c in
  if (65 <=? b) && (b <=? 90) then strconv.chr (b + 32) else c.

Fixpoint EqualFold (s t : string) : bool :=
  match s, t with
  | EmptyString, EmptyString => true
  | String a s', String b t' => Ascii.eqb (fold a) (fold b) && EqualFold s' t'
  | _, _ => false
  end.

(** [strings.Join]. *)
Fixpoint Join (elems : list string) (sep : string) : string :=
  match elems with
  | [] => ""
  | [e] => e
  | e :: rest => e +:+ sep +:+ Join rest sep
  end.

(** [s] has no occurrence of the character [sep]:
    [strings.IndexByte(s, sep) < 0]. *)
Fixpoint lacks (sep : ascii) (s : string) : bool :=
  match s with
  | EmptyString => true
  | String c rest => negb (Ascii.eqb c sep) && lacks sep rest
  end.

End strings.

(** ** golang.org/x/time/rate *)

Module rate.

(** [time.Minute], a [time.Duration] in nanoseconds. *)
Definition Minute : Z := 60 * 1000000000.

(** The largest [time.Duration]; [Time.Sub] saturates there. *)
Definition maxDuration : Z := 2 ^ 63 - 1.
Definition minDuration : Z := - 2 ^ 63.

(** [t.Sub(u)] on instants counted in nanoseconds from Go's zero time. *)
Definition Sub (t u : Z) : Z := Z.max minDuration (Z.min maxDuration (t - u)).

(** A [rate.Limit]: [Inf], or one event per [interval] nanoseconds. *)
Inductive Limit : Type :=
| Inf
| Per (interval : Z).

(** [rate.Every]. *)
Definition Every (interval : Z) : Limit :=
  if interval <=? 0 then Inf else Per interval.

(** Modelled from the spec: the token bucket of [rate.Limiter] (a dependency,
    not under src/), "refilling one token per interval up to burst".  Time is
    the explicit instant [now] that [time.Now()] returns; the bucket level
    is counted exactly, in units of [1/interval] token (one unit accrues per
    nanosecond).  The library keeps the level in [float64] and cuts the wait
    for the next token to whole nanoseconds, so within about a nanosecond's
    refill of a full token it may grant a call that the exact count refuses;
    the theorems on the registry are stated so as to hold with that slack as
    well. *)
Record Limiter : Type := mkLimiter {
  limit : Limit;
  burst : Z;
  tokens : Z;
  last : Z
}.

(** [rate.NewLimiter(r, b)]: no tokens yet, last update at the zero time. *)
Definition NewLimiter (r : Limit) (b : Z) : Limiter :=
  {| limit := r; burst := b; tokens := 0; last := 0 |}.

(** [lim.advance(t)]: the level at [t] (in units), capped at the burst. *)
Definition advance (lim : Limiter) (interval t : Z) : Z :=
  let last := if t <? last lim then t else last lim in
  let elapsed := Sub t last in
  Z.min (tokens lim + elapsed) (burst lim * interval).

(** [lim.Allow()] at instant [now]: take one token if one is there. *)
Definition Allow (lim : Limiter) (now : Z) : bool * Limiter :=
  match limit lim with
  | Inf => (true, lim)
  | Per interval =>
      let tokens := advance lim interval now - interval in
      let ok := (1 <=? burst lim) && (0 <=? tokens) in
      if ok then
        (true, {| limit := limit lim; burst := burst lim; tokens := tokens; last := now |})
      else (false, lim)
  end.

End rate.

(** ** Data model *)

(** [common.PubKey] is a string type. *)
Definition PubKey : Type := string.

Module ContractAuth.
Record t : Type := mk {
  ContractId : Z;
  Timestamp : Z;
  Signature : list Byte.byte
}.
Definition zero : t := mk 0 0 [].
End ContractAuth.

Module ArkAuth.
Record t : Type := mk {
  ContractId : Z;
  Spender : PubKey;
  Nonce : Z;
  Signature : list Byte.byte
}.
Definition zero : t := mk 0 "" 0 [].
End ArkAuth.

Inductive ContractType : Type := SUBSCRIPTION | PAY_AS_YOU_GO.

(** The spec's RESTRICTED is [ContractAuthorization_STRICT]. *)
Inductive ContractAuthorization : Type := STRICT | OPEN.

(** [types.Contract]: [Rate] is the amount of the rate coin and [Deposit]
    is [None] when the [cosmos.Int] is nil. *)
Module Contract.
Record t : Type := mk {
  Provider : PubKey;
  Service : Z;
  Client : PubKey;
  Delegate : PubKey;
  Type_ : ContractType;
  Height : Z;
  Duration : Z;
  Rate : Z;
  Deposit : option Z;
  Nonce : Z;
  Id : Z;
  SettlementDuration : Z;
  Authorization : ContractAuthorization;
  QueriesPerMinute : Z
}.
Definition zero : t :=
  mk "" 0 "" "" SUBSCRIPTION 0 0 0 None 0 0 0 STRICT 0.
Definition withNonce (c : t) (n : Z) : t :=
  mk (Provider c) (Service c) (Client c) (Delegate c) (Type_ c) (Height c)
     (Duration c) (Rate c) (Deposit c) n (Id c) (SettlementDuration c)
     (Authorization c) (QueriesPerMinute c).
End Contract.

Module Claim.
Record t : Type := mk {
  ContractId : Z;
  Spender : PubKey;
  Nonce : Z;
  Signature : string;
  Claimed : bool
}.
End Claim.

(** Modelled from the spec: [NewClaim] (sentinel's claim constructor, not
    under src/): a claim of the four given fields, not yet submitted. *)
Definition NewClaim (contractId : Z) (spender : PubKey) (nonce : Z) (signature : string)
  : Claim.t :=
  Claim.mk contractId spender nonce signature false.

Record CORs : Type := mkCORs {
  AllowOrigins : list string;
  AllowMethods : list string;
  AllowHeaders : list string
}.

Record ContractConfiguration : Type := mkContractConfiguration {
  CORs_ : CORs;
  WhitelistIPAddresses : list string;
  PerUserRateLimit : Z
}.

Definition zeroContractConfiguration : ContractConfiguration :=
  mkContractConfiguration (mkCORs [] [] []) [] 0.

Record Configuration : Type := mkConfiguration {
  ProviderPubKey : PubKey;
  FreeTierRateLimit : Z
}.

(** ** Collaborators *)

(** Modelled from the spec: the Contract Cache ([MemStore], not under src/)
    exposes [get(id) -> Contract|NotFound], [put(Contract)] and
    [currentHeight()]; a read leaves the cache as it is. *)
Class ContractCache (M : Type) : Type := {
  MemStore_Get : M -> string -> Contract.t * option error;
  MemStore_GetHeight : M -> Z;
  MemStore_Put : M -> Contract.t -> M
}.

(** Modelled from the spec: the Claim Cache ([ClaimStore], not under src/)
    exposes [has(id)], [get(id) -> Claim|NotFound] and [set(Claim)]; a
    [set] that fails has recorded nothing. *)
Class ClaimCache (C : Type) : Type := {
  ClaimStore_Has : C -> string -> bool;
  ClaimStore_Get : C -> string -> Claim.t * option error;
  ClaimStore_Set : C -> Claim.t -> C + error
}.

(** The ledger types and cryptography the pipeline calls into: contract
    expiry, the provider's address, the ledger message's [ValidateBasic],
    bech32 key recovery, signature verification, service names. *)
Class Ledger (Addr PK : Type) : Type := {
  IsExpired : Contract.t -> Z -> bool;
  GetMyAddress : PubKey -> Addr * option error;
  MsgClaimContractIncome_ValidateBasic : Addr -> Z -> Z -> list Byte.byte -> option error;
  GetPubKeyFromBech32 : string -> string -> PK * option error;
  VerifySignature : PK -> string -> list Byte.byte -> bool;
  NewService : string -> Z * option error
}.

(** The [Proxy]'s fields, with the package-level [visitors] map. *)
Record State (M C : Type) : Type := mkState {
  Config : Configuration;
  MemStore : M;
  ClaimStore : C;
  ContractConfigStore : gmap Z ContractConfiguration;
  visitors : gmap string rate.Limiter
}.
Arguments mkState {M C}.
Arguments Config {M C}.
Arguments MemStore {M C}.
Arguments ClaimStore {M C}.
Arguments ContractConfigStore {M C}.
Arguments visitors {M C}.

(** ** Early return *)

(** A block of Go statements goes on to the next statement with a value,
    returns from the enclosing function, or panics. *)
Inductive step (R A : Type) : Type :=
| Continue (a : A)
| Finish (r : R)
| Abort (msg : string).
Arguments Continue {R A} a.
Arguments Finish {R A} r.
Arguments Abort {R A} msg.

Definition bind {R A B : Type} (c : step R A) (k : A -> step R B) : step R B :=
  match c with
  | Continue a => k a
  | Finish r => Finish r
  | Abort msg => Abort msg
  end.

Notation "'let*' x := c 'in' k" := (bind c (fun x => k))
  (at level 10, x pattern, c at level 200, k at level 200, only parsing).

(** The function's result: falling off the end returns the last value. *)
Definition returning {R : Type} (c : step R R) : outcome R :=
  match c with
  | Continue r => Return r
  | Finish r => Return r
  | Abort msg => Panic msg
  end.

(** Calling a function that may panic. *)
Definition call {R A : Type} (o : outcome A) : step R A :=
  match o with
  | Return a => Continue a
  | Panic msg => Abort msg
  end.

(** [parts[i]]: an index past the end panics. *)
Definition index {R : Type} (parts : list string) (i : nat) : step R string :=
  match nth_error parts i with
  | Some s => Continue s
  | None => Abort "index out of range"
  end.

Definition len {A : Type} (l : list A) : Z := Z.of_nat (length l).

(** [cosmos.Int.Int64()] panics when the value does not fit. *)
Definition Int_Int64 {R : Type} (i : Z) : step R Z :=
  if (minInt64 <=? i) && (i <=? maxInt64) then Continue i
  else Abort "Int64() out of bound".

(** ** HTTP *)

Definition StatusOK : Z := 200.
Definition StatusBadRequest : Z := 400.
Definition StatusUnauthorized : Z := 401.
Definition StatusPaymentRequired : Z := 402.
Definition StatusForbidden : Z := 403.
Definition StatusTooManyRequests : Z := 429.
Definition StatusInternalServerError : Z := 500.

(** [http.StatusText(429)]. *)
Definition StatusText429 : string := "Too Many Requests".

(** What the handler reads from the [*http.Request]: the first value of the
    [arkauth] query parameter if present, the two forwarding headers (empty
    when absent), the peer address and the path. *)
Record Request : Type := mkRequest {
  Query_arkauth : option string;
  Header_XRealIp : string;
  Header_XForwardedFor : string;
  RemoteAddr : string;
  URL_Path : string
}.

(** What the handler does to the [http.ResponseWriter]: the headers set
    (under the names the source gives them), the status and the message
    written by [http.Error] (the body is the text of [Body]), and whether
    [next.ServeHTTP] was called. *)
Record ResponseWriter : Type := mkResponseWriter {
  Header : gmap string string;
  Status : option Z;
  Body : option error;
  served : bool
}.

Definition newResponseWriter : ResponseWriter := mkResponseWriter ∅ None None false.

Definition Header_Set (w : ResponseWriter) (k v : string) : ResponseWriter :=
  mkResponseWriter (<[k := v]> (Header w)) (Status w) (Body w) (served w).

(** [http.Error]: a plain-text reply with the given status. *)
Definition http_Error (w : ResponseWriter) (msg : error) (code : Z) : ResponseWriter :=
  mkResponseWriter
    (<["X-Content-Type-Options" := "nosniff"]>
       (<["Content-Type" := "text/plain; charset=utf-8"]> (Header w)))
    (Some code) (Some msg) (served w).

Definition ServeHTTP (w : ResponseWriter) : ResponseWriter :=
  mkResponseWriter (Header w) (Status w) (Body w) true.

(** ** The source: package sentinel *)

Definition QueryArkAuth : string := "arkauth".
Definition forwardHeaderName : string := "X-Forwarded-For".
Definition xRealIPName : string := "X-Real-Ip".
Definition Bech32PubKeyTypeAccPub : string := "accpub".

(** [GenerateMessageToSign]: [fmt.Sprintf("%d:%d", contractId, nonce)]. *)
Definition GenerateMessageToSign (contractId nonce : Z) : string :=
  strconv.FormatUint contractId +:+ ":" +:+ strconv.FormatInt nonce.

(** [GenerateArkAuthString]: [fmt.Sprintf("%s:%s", ..., hex)]. *)
Definition GenerateArkAuthString (contractId nonce : Z) (signature : list Byte.byte)
  : string :=
  GenerateMessageToSign contractId nonce +:+ ":" +:+ hex.EncodeToString signature.

(** [ArkAuth.String]. *)
Definition ArkAuth_String (aa : ArkAuth.t) : string :=
  GenerateArkAuthString (ArkAuth.ContractId aa) (ArkAuth.Nonce aa) (ArkAuth.Signature aa).

(** [if err != nil { return x, err }] after an assignment to a field of
    the result [x]. *)
Definition check {A : Type} (err : option error) (x : A) : step (A * option error) A :=
  match err with
  | Some e => Finish (x, Some e)
  | None => Continue x
  end.

(** [parseContractAuth]: the first two guards are both [len(parts) > 0]. *)
Definition parseContractAuth (raw : string) : outcome (ContractAuth.t * option error) :=
  let parts := strings.SplitN raw ":" 3 in
  returning (
    let auth := ContractAuth.zero in
    let* auth :=
      if 0 <? len parts then
        let* p0 := index parts 0 in
        let '(v, err) := strconv.ParseUint p0 in
        check err (ContractAuth.mk v (ContractAuth.Timestamp auth)
                     (ContractAuth.Signature auth))
      else Continue auth in
    let* auth :=
      if 0 <? len parts then
        let* p1 := index parts 1 in
        let '(v, err) := strconv.ParseInt p1 in
        check err (ContractAuth.mk (ContractAuth.ContractId auth) v
                     (ContractAuth.Signature auth))
      else Continue auth in
    let* auth :=
      if 2 <? len parts then
        let* p2 := index parts 2 in
        let '(v, err) := hex.DecodeString p2 in
        check err (ContractAuth.mk (ContractAuth.ContractId auth)
                     (ContractAuth.Timestamp auth) v)
      else Continue auth in
    Continue (auth, None)).

(** [parseArkAuth]. *)
Definition parseArkAuth (raw : string) : outcome (ArkAuth.t * option error) :=
  let parts := strings.SplitN raw ":" 3 in
  returning (
    let aa := ArkAuth.zero in
    let* aa :=
      if 0 <? len parts then
        let* p0 := index parts 0 in
        let '(v, err) := strconv.ParseUint p0 in
        check err (ArkAuth.mk v (ArkAuth.Spender aa) (ArkAuth.Nonce aa)
                     (ArkAuth.Signature aa))
      else Continue aa in
    let* aa :=
      if 1 <? len parts then
        let* p1 := index parts 1 in
        let '(v, err) := strconv.ParseInt p1 in
        check err (ArkAuth.mk (ArkAuth.ContractId aa) (ArkAuth.Spender aa) v
                     (ArkAuth.Signature aa))
      else Continue aa in
    let* aa :=
      if 2 <? len parts then
        let* p2 := index parts 2 in
        let '(v, err) := hex.DecodeString p2 in
        check err (ArkAuth.mk (ArkAuth.ContractId aa) (ArkAuth.Spender aa)
                     (ArkAuth.Nonce aa) v)
      else Continue aa in
    Continue (aa, None)).

(** [getRemoteAddr]. *)
Definition getRemoteAddr (r : Request) : string :=
  let realIP := Header_XRealIp r in
  if negb (String.eqb realIP "") then realIP
  else
    let forwardIP := Header_XForwardedFor r in
    if negb (String.eqb forwardIP "") then forwardIP
    else RemoteAddr r.

(** [enableCORS]. *)
Definition enableCORS (w : ResponseWriter) (cors : CORs) : ResponseWriter :=
  let w := if 0 <? len (AllowOrigins cors)
           then Header_Set w "Access-Control-Allow-Origin" (strings.Join (AllowOrigins cors) ", ")
           else w in
  let w := if 0 <? len (AllowMethods cors)
           then Header_Set w "Access-Control-Allow-Methods" (strings.Join (AllowMethods cors) ", ")
           else w in
  let w := if 0 <? len (AllowHeaders cors)
           then Header_Set w "Access-Control-Allow-Headers" (strings.Join (AllowHeaders cors) ", ")
           else w in
  w.

(** The registry key: [fmt.Sprintf("%d-%s", contractId, key)]. *)
Definition limiterKey (contractId : Z) (key : string) : string :=
  strconv.FormatUint contractId +:+ "-" +:+ key.

(** [isRateLimited] on the [visitors] map, at the instant [now] at which
    [limiter.Allow()] reads the clock; the mutex makes the body one step.
    The limiter is held by pointer, so the map sees what [Allow] did. *)
Definition isRateLimited (visitors : gmap string rate.Limiter) (now : Z)
    (contractId : Z) (key : string) (limitTokens : Z)
  : bool * gmap string rate.Limiter :=
  let key := limiterKey contractId key in
  let '(limiter, visitors) :=
    match visitors !! key with
    | Some limiter => (limiter, visitors)
    | None =>
        let limiter := rate.NewLimiter (rate.Every rate.Minute) limitTokens in
        (limiter, <[key := limiter]> visitors)
    end in
  let '(ok, limiter) := rate.Allow limiter now in
  (negb ok, <[key := limiter]> visitors).

(** A run of calls to [isRateLimited] for one key, each with its instant
    and its quota. *)
Fixpoint isRateLimited_seq (visitors : gmap string rate.Limiter) (contractId : Z)
    (key : string) (calls : list (Z * Z)) : list bool * gmap string rate.Limiter :=
  match calls with
  | [] => ([], visitors)
  | (now, limitTokens) :: rest =>
      let '(b, visitors) := isRateLimited visitors now contractId key limitTokens in
      let '(bs, visitors) := isRateLimited_seq visitors contractId key rest in
      (b :: bs, visitors)
  end.

(** What holds of every limiter the registry has created: it refills one
    token per minute. *)
Definition registry_inv (visitors : gmap string rate.Limiter) : Prop :=
  forall k lim, visitors !! k = Some lim -> rate.limit lim = rate.Per rate.Minute.

(** The bucket of the specification's words for quota [q]: one token per
    [60/q] seconds, burst [q]. *)
Definition spec_NewLimiter (q : Z) : rate.Limiter :=
  rate.NewLimiter (rate.Every (rate.Minute / q)) q.

(** [ContractAuth.String]. *)
Definition ContractAuth_String (auth : ContractAuth.t) : string :=
  "Contract Id: " +:+ strconv.FormatUint (ContractAuth.ContractId auth) +:+
  ", Timestamp: " +:+ strconv.FormatInt (ContractAuth.Timestamp auth) +:+
  ", Signature: " +:+ hex.EncodeToString (ContractAuth.Signature auth).

(** The number of calls a run of [isRateLimited] let through. *)
Fixpoint grants (limited : list bool) : Z :=
  match limited with
  | [] => 0
  | b :: rest => (if b then 0 else 1) + grants rest
  end.

(** The level of a registry bucket at the instant [t], in units of
    [1/Minute] token. *)
Definition level (lim : rate.Limiter) (t : Z) : Z := rate.advance lim rate.Minute t.

(** What the registry keeps true of a bucket: one token per minute, and
    neither its level nor its burst below zero. *)
Definition sound (lim : rate.Limiter) : Prop :=
  rate.limit lim = rate.Per rate.Minute /\ 0 <= rate.tokens lim /\ 0 <= rate.burst lim.

(** Instants that do not go back, starting from [t]. *)
Fixpoint ascending (t : Z) (ts : list Z) : Prop :=
  match ts with
  | [] => True
  | t' :: rest => t <= t' /\ ascending t' rest
  end.

(** The last instant of a run that starts at [t]. *)
Fixpoint final (t : Z) (ts : list Z) : Z :=
  match ts with
  | [] => t
  | t' :: rest => final t' rest
  end.

Section Pipeline.

Context {M C Addr PK : Type}.
Context `{!ContractCache M} `{!ClaimCache C} `{!Ledger Addr PK}.

Definition with_visitors (p : State M C) (v : gmap string rate.Limiter) : State M C :=
  mkState (Config p) (MemStore p) (ClaimStore p) (ContractConfigStore p) v.

Definition with_ClaimStore (p : State M C) (c : C) : State M C :=
  mkState (Config p) (MemStore p) c (ContractConfigStore p) (visitors p).

Definition with_MemStore (p : State M C) (m : M) : State M C :=
  mkState (Config p) m (ClaimStore p) (ContractConfigStore p) (visitors p).

(** Modelled from the spec: [ContractConfigStore.Get] (not under src/),
    [get(id) -> Config|NotFound]; the zero configuration comes with the
    error. *)
Definition ContractConfigStore_Get (p : State M C) (id : Z)
  : ContractConfiguration * option error :=
  match ContractConfigStore p !! id with
  | Some conf => (conf, None)
  | None => (zeroContractConfiguration, Some (External "not found"))
  end.

(** [ArkAuth.Validate]. *)
Definition ArkAuth_Validate (aa : ArkAuth.t) (provider : PubKey) : option error :=
  let '(creator, err) := GetMyAddress provider in
  match err with
  | Some e => Some (Wrapf "internal server error: " e)
  | None =>
      MsgClaimContractIncome_ValidateBasic creator (ArkAuth.ContractId aa)
        (ArkAuth.Nonce aa) (ArkAuth.Signature aa)
  end.

(** [ContractAuth.Validate]. *)
Definition ContractAuth_Validate (auth : ContractAuth.t) (lastTimestamp : Z)
    (client : PubKey) : option error :=
  if ContractAuth.ContractId auth =? 0 then
    Some (Errorf "contract id cannot be zero")
  else if ContractAuth.Timestamp auth <=? lastTimestamp then
    Some (Errorf ("timestamp must be larger than " +:+ strconv.FormatInt lastTimestamp))
  else
    let '(pk, err) := GetPubKeyFromBech32 Bech32PubKeyTypeAccPub client in
    match err with
    | Some e => Some e
    | None =>
        let msg := strconv.FormatUint (ContractAuth.ContractId auth) +:+ ":" +:+
                   strconv.FormatInt (ContractAuth.Timestamp auth) in
        if negb (VerifySignature pk msg (ContractAuth.Signature auth)) then
          Some (Errorf "invalid signature")
        else None
    end.

(** [freeTier]. *)
Definition freeTier (p : State M C) (now : Z) (remoteAddr : string)
  : Z * option error * State M C :=
  let '(ok, v) :=
    isRateLimited (visitors p) now 0 remoteAddr (FreeTierRateLimit (Config p)) in
  let p := with_visitors p v in
  if ok then (StatusTooManyRequests, Some (Errorf StatusText429), p)
  else (StatusOK, None, p).

(** [paidTier]. *)
Definition paidTier (p : State M C) (now : Z) (aa : ArkAuth.t) (remoteAddr : string)
  : outcome (Z * option error * State M C) :=
  returning (
    let key := strconv.FormatUint (ArkAuth.ContractId aa) in
    let '(contract, err) := MemStore_Get (MemStore p) key in
    let* _ := match err with
              | Some e =>
                  Finish (StatusInternalServerError,
                          Some (Wrapf "internal server error: " e), p)
              | None => Continue tt
              end in
    let* _ := if IsExpired contract (MemStore_GetHeight (MemStore p)) then
                Finish (StatusPaymentRequired, Some (Errorf "open a contract"), p)
              else Continue tt in
    let sig := hex.EncodeToString (ArkAuth.Signature aa) in
    let claim := NewClaim (ArkAuth.ContractId aa) (ArkAuth.Spender aa)
                   (ArkAuth.Nonce aa) sig in
    let* claim := if ClaimStore_Has (ClaimStore p) key then
                    let '(claim, err) := ClaimStore_Get (ClaimStore p) key in
                    match err with
                    | Some e =>
                        Finish (StatusInternalServerError,
                                Some (Wrapf "internal server error: " e), p)
                    | None =>
                        if ArkAuth.Nonce aa <=? Claim.Nonce claim then
                          Finish (StatusBadRequest,
                                  Some (Errorf ("bad nonce (" +:+
                                                strconv.FormatInt (ArkAuth.Nonce aa) +:+ "/" +:+
                                                strconv.FormatInt (Claim.Nonce claim) +:+ ")")),
                                  p)
                        else Continue claim
                    end
                  else Continue claim in
    (* check if we've exceed the total number of pay-as-you-go queries *)
    let* _ := match Contract.Type_ contract with
              | PAY_AS_YOU_GO =>
                  match Contract.Deposit contract with
                  | None =>
                      Finish (StatusPaymentRequired, Some (Errorf "contract spent"), p)
                  | Some deposit =>
                      let* rate := Int_Int64 (Contract.Rate contract) in
                      if deposit <? mul_int64 (ArkAuth.Nonce aa) rate then
                        Finish (StatusPaymentRequired, Some (Errorf "contract spent"), p)
                      else Continue tt
                  end
              | SUBSCRIPTION => Continue tt
              end in
    let '(ok, v) := isRateLimited (visitors p) now (Contract.Id contract) key
                      (Contract.QueriesPerMinute contract) in
    let p := with_visitors p v in
    let* _ := if ok then
                Finish (StatusTooManyRequests,
                        Some (Errorf ("client is ratelimited," +:+ StatusText429)), p)
              else Continue tt in
    let claim := Claim.mk (Claim.ContractId claim) (Claim.Spender claim)
                   (ArkAuth.Nonce aa) sig false in
    let* p := match ClaimStore_Set (ClaimStore p) claim with
              | inr e =>
                  Finish (StatusInternalServerError,
                          Some (Wrapf "internal server error: " e), p)
              | inl c => Continue (with_ClaimStore p c)
              end in
    let contract := Contract.withNonce contract (ArkAuth.Nonce aa) in
    let p := with_MemStore p (MemStore_Put (MemStore p) contract) in
    Continue (StatusOK, None, p)).

(** The claim the success path stores: the recorded claim if there is
    one, a new claim otherwise, carrying the proof's nonce and signature. *)
Definition committedClaim (p : State M C) (aa : ArkAuth.t) : Claim.t :=
  let key := strconv.FormatUint (ArkAuth.ContractId aa) in
  let sig := hex.EncodeToString (ArkAuth.Signature aa) in
  let claim := if ClaimStore_Has (ClaimStore p) key
               then fst (ClaimStore_Get (ClaimStore p) key)
               else NewClaim (ArkAuth.ContractId aa) (ArkAuth.Spender aa) (ArkAuth.Nonce aa) sig in
  Claim.mk (Claim.ContractId claim) (Claim.Spender claim) (ArkAuth.Nonce aa) sig false.

(** The IP allowlist loop of [auth]. *)
Definition whitelisted (remoteAddr : string) (ips : list string) : bool :=
  existsb (fun ip => strings.EqualFold remoteAddr ip) ips.

(** The contract policy block of [auth], run when [contract.Id > 0]: CORS
    headers, the IP allowlist (403) and the per-user rate limit (429). *)
Definition contractPolicy (p : State M C) (now : Z) (w : ResponseWriter)
    (contract : Contract.t) (remoteAddr : string)
  : step (ResponseWriter * State M C) (ResponseWriter * State M C) :=
  if 0 <? Contract.Id contract then
    let '(conf, _) := ContractConfigStore_Get p (Contract.Id contract) in
    let w := enableCORS w (CORs_ conf) in
    (* enfore IP Whitelist *)
    let* _ := if 0 <? len (WhitelistIPAddresses conf) then
                if negb (whitelisted remoteAddr (WhitelistIPAddresses conf)) then
                  Finish (http_Error w (Errorf "Forbidden") StatusForbidden, p)
                else Continue tt
              else Continue tt in
    if 0 <? PerUserRateLimit conf then
      let '(ok, v) := isRateLimited (visitors p) now (Contract.Id contract)
                        remoteAddr (PerUserRateLimit conf) in
      let p := with_visitors p v in
      if ok then
        Finish (http_Error w (Errorf StatusText429) StatusTooManyRequests, p)
      else Continue (w, p)
    else Continue (w, p)
  else Continue (w, p).

(** The eligibility test of [auth]:
    [err == nil && (Authorization == OPEN || aa.Validate(provider) == nil)]. *)
Definition eligible (p : State M C) (aa : ArkAuth.t) (contract : Contract.t)
    (err : option error) : bool :=
  match err with
  | None =>
      match Contract.Authorization contract with
      | OPEN => true
      | STRICT =>
          match ArkAuth_Validate aa (ProviderPubKey (Config p)) with
          | None => true
          | Some _ => false
          end
      end
  | Some _ => false
  end.

(** [auth]: the handler's work on one request, at the instant [now]. *)
Definition auth (p : State M C) (now : Z) (r : Request)
  : outcome (ResponseWriter * State M C) :=
  returning (
    let w := newResponseWriter in
    let* aa := match Query_arkauth r with
               | Some raw =>
                   let* res := call (parseArkAuth raw) in
                   match snd res with
                   | Some err => Finish (http_Error w err StatusBadRequest, p)
                   | None => Continue (fst res)
                   end
               | None => Continue ArkAuth.zero
               end in
    let remoteAddr := getRemoteAddr r in
    let '(contract, err) :=
      MemStore_Get (MemStore p) (strconv.FormatUint (ArkAuth.ContractId aa)) in
    (* collect contract configuration *)
    let* wp := contractPolicy p now w contract remoteAddr in
    let '(w, p) := wp in
    let* wp := if eligible p aa contract err then
                 let w := Header_Set w "tier" "paid" in
                 (* ensure service of the contract matches first item in the path *)
                 let parts := strings.Split (URL_Path r) "/" in
                 let* serviceName := index parts 1 in
                 let '(ser, err) := NewService serviceName in
                 let* _ := match err with
                           | Some e =>
                               let msg :=
                                 "contract service doesn't match the serivce name in the path: (" +:+
                                 strconv.FormatInt ser +:+ "/" +:+
                                 strconv.FormatInt (Contract.Service contract) +:+ "): " in
                               Finish (http_Error w (Wrapf msg e) StatusUnauthorized, p)
                           | None =>
                               if negb (ser =? Contract.Service contract) then
                                 Abort "nil pointer dereference"
                               else Continue tt
                           end in
                 let* res := call (paidTier p now aa remoteAddr) in
                 let '(httpCode, err, p) := res in
                 (* paidTier can serve the request *)
                 match err with
                 | None => Finish (ServeHTTP w, p)
                 | Some _ => Continue (w, p)
                 end
               else Continue (w, p) in
    let '(w, p) := wp in
    let w := Header_Set w "tier" "free" in
    let '(httpCode, err, p) := freeTier p now remoteAddr in
    match err with
    | Some e => Finish (http_Error w e httpCode, p)
    | None => Finish (ServeHTTP w, p)
    end).

(** The proof [auth] works with for request [r]: the parsed [arkauth]
    parameter, or the zero proof when the parameter is absent. *)
Definition carries (r : Request) (aa : ArkAuth.t) : Prop :=
  match Query_arkauth r with
  | Some raw => parseArkAuth raw = Return (aa, None)
  | None => aa = ArkAuth.zero
  end.

(** The free path that ends [auth]: the [tier] header, the free-tier
    limiter, then 429 or the backend. *)
Definition freePath (w : ResponseWriter) (p : State M C) (now : Z) (remoteAddr : string)
  : ResponseWriter * State M C :=
  let w := Header_Set w "tier" "free" in
  let '(httpCode, err, p) := freeTier p now remoteAddr in
  match err with
  | Some e => (http_Error w e httpCode, p)
  | None => (ServeHTTP w, p)
  end.

End Pipeline.

(** ** Collaborators for the examples *)

(** A contract cache held in a map, keyed by the decimal contract id. *)
Record MapMemStore : Type := mkMapMemStore {
  db : gmap string Contract.t;
  height : Z
}.

#[export] Instance MapMemStore_cache : ContractCache MapMemStore := {
  MemStore_Get m key :=
    match db m !! key with
    | Some c => (c, None)
    | None => (Contract.zero, Some (External "not found"))
    end;
  MemStore_GetHeight m := height m;
  MemStore_Put m c :=
    mkMapMemStore (<[strconv.FormatUint (Contract.Id c) := c]> (db m)) (height m)
}.

(** A claim cache held in a map; [writable] is false when the backing
    store refuses writes. *)
Record MapClaimStore : Type := mkMapClaimStore {
  claims : gmap string Claim.t;
  writable : bool
}.

Definition zeroClaim : Claim.t := Claim.mk 0 "" 0 "" false.

#[export] Instance MapClaimStore_cache : ClaimCache MapClaimStore := {
  ClaimStore_Has c key := bool_decide (is_Some (claims c !! key));
  ClaimStore_Get c key :=
    match claims c !! key with
    | Some cl => (cl, None)
    | None => (zeroClaim, Some (External "not found"))
    end;
  ClaimStore_Set c cl :=
    if writable c then
      inl (mkMapClaimStore (<[strconv.FormatUint (Claim.ContractId cl) := cl]> (claims c))
             (writable c))
    else inr (External "read-only store")
}.

(** A toy ledger: a contract expires once the height passes
    [Height + Duration]; a proof validates when its contract id is not zero
    and its signature is the one byte [0x01]; every key decodes to itself and
    verifies exactly the signature [0x01]; every service name is service 1. *)
#[export] Instance ToyLedger : Ledger string string := {
  IsExpired c h := Contract.Height c + Contract.Duration c <? h;
  GetMyAddress pk := (pk, None);
  MsgClaimContractIncome_ValidateBasic creator id nonce sig :=
    if id =? 0 then Some (External "invalid contract id")
    else match sig with
         | [Byte.x01] => None
         | _ => Some (External "invalid signature")
         end;
  GetPubKeyFromBech32 prefix s :=
    if String.eqb s "" then ("", Some (External "empty key")) else (s, None);
  VerifySignature pk msg sig :=
    match sig with
    | [Byte.x01] => true
    | _ => false
    end;
  NewService name := (1, None)
}.

Definition ToyState : Type := State MapMemStore MapClaimStore.

(** Contract 7 of the spec's scenario: pay-as-you-go, rate 10, deposit 100,
    restricted, one query per minute, open until height 1000. *)
Definition contract7 : Contract.t :=
  Contract.mk "provider" 1 "client" "" PAY_AS_YOU_GO 0 1000 10 (Some 100) 0 7 10 STRICT 1.

(** The same contract as a subscription whose ledger nonce is already 5. *)
Definition subscription7 : Contract.t :=
  Contract.mk "provider" 1 "client" "" SUBSCRIPTION 0 1000 10 None 5 7 10 STRICT 1.

Definition config0 : Configuration := mkConfiguration "provider" 10.

(** A gateway that knows contract [c] at height [h], with [cl] as recorded
    claims, [conf] as contract configurations and no limiter yet. *)
Definition gatewayAt (h : Z) (c : Contract.t) (cl : gmap string Claim.t)
    (conf : gmap Z ContractConfiguration) : ToyState :=
  mkState config0
    (mkMapMemStore {[strconv.FormatUint (Contract.Id c) := c]} h)
    (mkMapClaimStore cl true) conf ∅.

Definition gateway (c : Contract.t) (cl : gmap string Claim.t) : ToyState :=
  gatewayAt 1 c cl ∅.

(** Contract 7 open to any caller, bound to service 2. *)
Definition open7 : Contract.t :=
  Contract.mk "provider" 2 "client" "" SUBSCRIPTION 0 1000 10 None 0 7 10 OPEN 1.

(** A claim recorded for contract 7 with nonce 9. *)
Definition claim9 : Claim.t := Claim.mk 7 "client" 9 "01" false.

(** A configuration of contract 7 that admits only 10.0.0.1. *)
Definition allowlist7 : gmap Z ContractConfiguration :=
  {[7 := mkContractConfiguration (mkCORs [] [] []) ["10.0.0.1"] 0]}.

(** An instant of the year 2026, in nanoseconds from Go's zero time. *)
Definition t0 : Z := 63900000000 * 1000000000.

(** * Properties *)

(** Split the goal into its parts and close each by the equations and
    bounds in the context. *)
Ltac settle :=
  repeat split; intros;
  repeat match goal with H : _ /\ _ |- _ => destruct H end;
  first [congruence | lia | discriminate].

(** Follow a function of the pipeline through each of its tests. *)
Ltac paid_cases :=
  repeat (cbn [bind returning fst snd] in *;
          match goal with
          | |- context [match ?x with _ => _ end] => destruct x eqn:?
          end).

(** ** Decimal numbers *)

Lemma maxUint64_eq : maxUint64 = 18446744073709551615.
Proof. reflexivity. Qed.

Lemma wrap_int64_small (n : Z) : is_int64 n -> wrap_int64 n = n.
Proof.
  unfold is_int64, minInt64, maxInt64, wrap_int64.
  change (2 ^ 63) with 9223372036854775808.
  change (2 ^ 64) with 18446744073709551616.
  intros Hn. rewrite Z.mod_small by lia. lia.
Qed.

(** The character of a decimal digit has the digit's code. *)
Lemma code_chr_digit (d : Z) : 0 <= d < 10 -> strconv.code (strconv.chr (48 + d)) = 48 + d.
Proof.
  intros Hd.
  assert (Hc : d = 0 \/ d = 1 \/ d = 2 \/ d = 3 \/ d = 4 \/
               d = 5 \/ d = 6 \/ d = 7 \/ d = 8 \/ d = 9) by lia.
  repeat (destruct Hc as [-> | Hc]; [reflexivity |]). subst d. reflexivity.
Qed.

(** One turn of the digit loop on a decimal digit that does not overflow. *)
Lemma parseUint_loop_digit (s0 rest : string) (n d : Z) :
  0 <= d < 10 -> 0 <= n -> n * 10 + d <= maxUint64 ->
  strconv.parseUint_loop s0 n (String (strconv.chr (48 + d)) rest) =
  strconv.parseUint_loop s0 (n * 10 + d) rest.
Proof.
  intros Hd Hn Hmax. cbn [strconv.parseUint_loop].
  rewrite code_chr_digit by exact Hd.
  replace ((48 <=? 48 + d) && (48 + d <=? 57)) with true
    by (symmetry; apply andb_true_iff; split; apply Z.leb_le; lia).
  replace (48 + d - 48) with d by lia.
  replace (10 <=? d) with false by (symmetry; apply Z.leb_gt; lia).
  rewrite maxUint64_eq in *.
  replace (18446744073709551615 / 10 + 1 <=? n) with false.
  2:{ symmetry. apply Z.leb_gt. change (18446744073709551615 / 10) with 1844674407370955161. lia. }
  replace (18446744073709551615 <? n * 10 + d) with false
    by (symmetry; apply Z.ltb_ge; lia).
  reflexivity.
Qed.

(** Reading back the digits printed for [n] leaves the loop at [n]. *)
Lemma parseUint_loop_digits (fuel : nat) :
  forall (s0 rest : string) (n : Z),
    0 <= n <= maxUint64 -> n < 10 ^ Z.of_nat fuel ->
    strconv.parseUint_loop s0 0 (strconv.digits fuel n rest) =
    strconv.parseUint_loop s0 n rest.
Proof.
  induction fuel as [| fuel IH]; intros s0 rest n Hn Hlt.
  - cbn in Hlt. assert (n = 0) by lia. subst n. reflexivity.
  - cbn [strconv.digits].
    assert (Hmod : 0 <= n mod 10 < 10) by (apply Z.mod_pos_bound; lia).
    assert (Hdiv : n = 10 * (n / 10) + n mod 10) by (apply Z.div_mod; lia).
    destruct (n <? 10) eqn:Hsmall.
    + apply Z.ltb_lt in Hsmall.
      rewrite Z.mod_small by lia.
      rewrite parseUint_loop_digit by lia.
      f_equal.
    + apply Z.ltb_ge in Hsmall.
      rewrite IH.
      * rewrite parseUint_loop_digit by lia. f_equal. lia.
      * lia.
      * rewrite Nat2Z.inj_succ, Z.pow_succ_r in Hlt by lia. lia.
Qed.

(** The string printed for a number starts with a decimal digit. *)
Lemma digits_head (fuel : nat) :
  forall (n : Z) (acc : string), 0 <= n ->
    exists d s, 0 <= d < 10 /\ strconv.digits (S fuel) n acc = String (strconv.chr (48 + d)) s.
Proof.
  induction fuel as [| fuel IH]; intros n acc Hn.
  - exists (n mod 10), acc. split; [apply Z.mod_pos_bound; lia |].
    cbn [strconv.digits]. destruct (n <? 10); reflexivity.
  - remember (S fuel) as f eqn:Hf. cbn [strconv.digits].
    destruct (n <? 10).
    + exists (n mod 10), acc. split; [apply Z.mod_pos_bound; lia | reflexivity].
    + subst f. apply IH. apply Z.div_pos; lia.
Qed.

Lemma ParseUint_FormatUint (n : Z) :
  is_uint64 n -> strconv.ParseUint (strconv.FormatUint n) = (n, None).
Proof.
  intros Hn. unfold is_uint64 in Hn. unfold strconv.FormatUint.
  destruct (digits_head 19 n "" (proj1 Hn)) as (d & s & Hd & Hs).
  unfold strconv.ParseUint. rewrite Hs. rewrite <- Hs.
  rewrite parseUint_loop_digits; [reflexivity | exact Hn |].
  rewrite maxUint64_eq in Hn. change (10 ^ Z.of_nat 20) with 100000000000000000000. lia.
Qed.

Lemma ParseInt_FormatInt (n : Z) :
  is_int64 n -> strconv.ParseInt (strconv.FormatInt n) = (n, None).
Proof.
  intros Hn. unfold strconv.FormatInt.
  pose proof Hn as Hr. unfold is_int64, minInt64, maxInt64 in Hr.
  change (2 ^ 63) with 9223372036854775808 in Hr.
  destruct (n <? 0) eqn:Hneg.
  - apply Z.ltb_lt in Hneg.
    cbn [strconv.ParseInt]. change (Ascii.eqb "-" "+") with false.
    change (Ascii.eqb "-" "-") with true. cbv iota.
    rewrite ParseUint_FormatUint by (unfold is_uint64; rewrite maxUint64_eq; lia).
    change (2 ^ 63) with 9223372036854775808. cbn [negb andb].
    replace (9223372036854775808 <? - n) with false by (symmetry; apply Z.ltb_ge; lia).
    f_equal.
    destruct (Z.eq_dec n (-9223372036854775808)) as [-> | Hne]; [reflexivity |].
    rewrite (wrap_int64_small (- n)), Z.opp_involutive, wrap_int64_small; try reflexivity;
      unfold is_int64, minInt64, maxInt64; change (2 ^ 63) with 9223372036854775808; lia.
  - apply Z.ltb_ge in Hneg. unfold strconv.FormatUint.
    destruct (digits_head 19 n "" Hneg) as (d & s & Hd & Hs).
    rewrite Hs. cbn [strconv.ParseInt].
    assert (Hplus : Ascii.eqb (strconv.chr (48 + d)) "+" = false).
    { apply Ascii.eqb_neq. intros Heq. apply (f_equal strconv.code) in Heq.
      rewrite code_chr_digit in Heq by exact Hd.
      change (strconv.code "+") with 43 in Heq. lia. }
    assert (Hminus : Ascii.eqb (strconv.chr (48 + d)) "-" = false).
    { apply Ascii.eqb_neq. intros Heq. apply (f_equal strconv.code) in Heq.
      rewrite code_chr_digit in Heq by exact Hd.
      change (strconv.code "-") with 45 in Heq. lia. }
    rewrite Hplus, Hminus. rewrite <- Hs.
    change (strconv.digits 20 n "") with (strconv.FormatUint n).
    rewrite ParseUint_FormatUint by (unfold is_uint64; rewrite maxUint64_eq; lia).
    change (2 ^ 63) with 9223372036854775808. cbn [negb andb].
    replace (9223372036854775808 <=? n) with false by (symmetry; apply Z.leb_gt; lia).
    rewrite wrap_int64_small by exact Hn. reflexivity.
Qed.

(** ** Hexadecimal *)

Lemma hex_byte_roundtrip (v : Byte.byte) :
  let a := hex.reverseHexTable (hex.hexdigit (Z.shiftr (hex.byte_val v) 4)) in
  let b := hex.reverseHexTable (hex.hexdigit (Z.land (hex.byte_val v) 15)) in
  (15 <? a) = false /\ (15 <? b) = false /\
  hex.byte_of_Z (Z.lor (Z.shiftl a 4) b) = v.
Proof. destruct v; vm_compute; repeat split. Qed.

Lemma DecodeString_EncodeToString (bs : list Byte.byte) :
  hex.DecodeString (hex.EncodeToString bs) = (bs, None).
Proof.
  induction bs as [| v bs IH]; [reflexivity |].
  cbn [hex.EncodeToString hex.DecodeString].
  destruct (hex_byte_roundtrip v) as (Ha & Hb & Hv).
  cbv zeta in Ha, Hb, Hv. rewrite Ha, Hb, IH, Hv. reflexivity.
Qed.

(** ** Splitting *)

Lemma app_String (a : ascii) (s t : string) : String a s +:+ t = String a (s +:+ t).
Proof. reflexivity. Qed.

Lemma app_assoc_string (s t u : string) : (s +:+ t) +:+ u = s +:+ (t +:+ u).
Proof.
  induction s as [| c s IH]; [reflexivity |].
  change (String c ((s +:+ t) +:+ u) = String c (s +:+ (t +:+ u))). now rewrite IH.
Qed.

Lemma cut_app (sep : ascii) (a rest : string) :
  strings.lacks sep a = true ->
  strings.cut sep (a +:+ String sep rest) = Some (a, rest).
Proof.
  induction a as [| c a IH]; cbn [strings.lacks]; intros Hl.
  - change (strings.cut sep (String sep rest) = Some (EmptyString, rest)).
    cbn [strings.cut]. now rewrite Ascii.eqb_refl.
  - apply andb_true_iff in Hl as [Hc Ha]. apply negb_true_iff in Hc.
    rewrite app_String. cbn [strings.cut]. rewrite Hc, IH by exact Ha. reflexivity.
Qed.

Lemma SplitN_three_parts (a b c : string) :
  strings.lacks ":" a = true -> strings.lacks ":" b = true ->
  strings.SplitN (a +:+ ":" +:+ b +:+ ":" +:+ c) ":" 3 = [a; b; c].
Proof.
  intros Ha Hb. cbn [strings.SplitN].
  change (":" +:+ b +:+ ":" +:+ c) with (String ":" (b +:+ String ":" c)).
  rewrite cut_app by exact Ha. rewrite cut_app by exact Hb. reflexivity.
Qed.

Lemma lacks_colon_digits (fuel : nat) :
  forall (n : Z) (acc : string), 0 <= n ->
    strings.lacks ":" acc = true -> strings.lacks ":" (strconv.digits fuel n acc) = true.
Proof.
  induction fuel as [| fuel IH]; intros n acc Hn Hacc; [exact Hacc |].
  cbn [strconv.digits].
  assert (Hmod : 0 <= n mod 10 < 10) by (apply Z.mod_pos_bound; lia).
  assert (Hacc' : strings.lacks ":" (String (strconv.chr (48 + n mod 10)) acc) = true).
  { cbn [strings.lacks]. rewrite Hacc, andb_true_r. apply negb_true_iff, Ascii.eqb_neq.
    intros Heq. apply (f_equal strconv.code) in Heq.
    rewrite code_chr_digit in Heq by exact Hmod.
    change (strconv.code ":") with 58 in Heq. lia. }
  destruct (n <? 10); [exact Hacc' |].
  apply IH; [apply Z.div_pos; lia | exact Hacc'].
Qed.

Lemma lacks_colon_FormatUint (n : Z) :
  0 <= n -> strings.lacks ":" (strconv.FormatUint n) = true.
Proof. intros Hn. apply lacks_colon_digits; [exact Hn | reflexivity]. Qed.

Lemma lacks_colon_FormatInt (n : Z) : strings.lacks ":" (strconv.FormatInt n) = true.
Proof.
  unfold strconv.FormatInt. destruct (n <? 0) eqn:Hneg.
  - apply Z.ltb_lt in Hneg. cbn [strings.lacks].
    rewrite lacks_colon_FormatUint by lia. reflexivity.
  - apply Z.ltb_ge in Hneg. now apply lacks_colon_FormatUint.
Qed.

(** ** The delegated-spender codec *)

Lemma ArkAuth_String_parts (aa : ArkAuth.t) :
  is_uint64 (ArkAuth.ContractId aa) ->
  strings.SplitN (ArkAuth_String aa) ":" 3 =
  [strconv.FormatUint (ArkAuth.ContractId aa);
   strconv.FormatInt (ArkAuth.Nonce aa);
   hex.EncodeToString (ArkAuth.Signature aa)].
Proof.
  intros [Hc _]. unfold ArkAuth_String, GenerateArkAuthString, GenerateMessageToSign.
  rewrite app_assoc_string.
  change ((":" +:+ strconv.FormatInt (ArkAuth.Nonce aa)) +:+
          ":" +:+ hex.EncodeToString (ArkAuth.Signature aa))
    with (":" +:+ strconv.FormatInt (ArkAuth.Nonce aa) +:+
          ":" +:+ hex.EncodeToString (ArkAuth.Signature aa)).
  apply SplitN_three_parts; [now apply lacks_colon_FormatUint | apply lacks_colon_FormatInt].
Qed.

(** C6 (amended): for every delegated-spender proof whose contract id is a
    [uint64] and whose nonce is an [int64], parsing its serialization
    restores the contract id, the nonce and the signature; the spender key is
    not part of the serialization and comes back empty. *)
Theorem parseArkAuth_String_roundtrip (aa : ArkAuth.t) :
  is_uint64 (ArkAuth.ContractId aa) -> is_int64 (ArkAuth.Nonce aa) ->
  parseArkAuth (ArkAuth_String aa) =
  Return (ArkAuth.mk (ArkAuth.ContractId aa) "" (ArkAuth.Nonce aa) (ArkAuth.Signature aa),
          None).
Proof.
  intros Hid Hnonce. unfold parseArkAuth.
  rewrite ArkAuth_String_parts by exact Hid.
  pose proof (ParseUint_FormatUint _ Hid) as Hp0.
  pose proof (ParseInt_FormatInt _ Hnonce) as Hp1.
  pose proof (DecodeString_EncodeToString (ArkAuth.Signature aa)) as Hp2.
  destruct aa as [id spender nonce sig]. cbn [ArkAuth.ContractId ArkAuth.Nonce ArkAuth.Signature] in *.
  remember (strconv.FormatUint id) as a eqn:Ea.
  remember (strconv.FormatInt nonce) as b eqn:Eb.
  remember (hex.EncodeToString sig) as c eqn:Ec.
  cbn [len length Z.of_nat Pos.of_succ_nat Pos.succ Z.ltb Z.compare Pos.compare
       Pos.compare_cont index nth_error bind].
  rewrite Hp0. cbn [bind check]. rewrite Hp1. cbn [bind check]. rewrite Hp2. reflexivity.
Qed.

Lemma parseArkAuth_String_roundtrip_witness :
  let aa := ArkAuth.mk 7 "spender" (-5) [Byte.xde; Byte.xad] in
  is_uint64 (ArkAuth.ContractId aa) /\ is_int64 (ArkAuth.Nonce aa) /\
  parseArkAuth (ArkAuth_String aa) = Return (ArkAuth.mk 7 "" (-5) [Byte.xde; Byte.xad], None).
Proof.
  cbv zeta.
  assert (Hid : is_uint64 7) by (unfold is_uint64; rewrite maxUint64_eq; lia).
  assert (Hn : is_int64 (-5)) by (unfold is_int64, minInt64, maxInt64; cbn; lia).
  split; [exact Hid | split; [exact Hn |]].
  exact (parseArkAuth_String_roundtrip (ArkAuth.mk 7 "spender" (-5) [Byte.xde; Byte.xad]) Hid Hn).
Defined.

(** C6 as stated fails: the spender key of a proof is lost by the round
    trip. *)
Lemma parseArkAuth_String_drops_spender :
  let aa := ArkAuth.mk 7 "spender" 5 [Byte.xde; Byte.xad] in
  ArkAuth_String aa = "7:5:dead" /\
  parseArkAuth (ArkAuth_String aa) = Return (ArkAuth.mk 7 "" 5 [Byte.xde; Byte.xad], None) /\
  parseArkAuth (ArkAuth_String aa) <> Return (aa, None).
Proof. cbv zeta. split; [reflexivity | split; [reflexivity | discriminate]]. Qed.

(** [parseArkAuth] guards each index by the number of parts and never
    panics. *)
Lemma SplitN_3_shape (raw : string) :
  (exists a, strings.SplitN raw ":" 3 = [a]) \/
  (exists a b, strings.SplitN raw ":" 3 = [a; b]) \/
  (exists a b c, strings.SplitN raw ":" 3 = [a; b; c]).
Proof.
  cbn [strings.SplitN]. destruct (strings.cut ":" raw) as [[a rest] |]; [| left; eauto].
  destruct (strings.cut ":" rest) as [[b c] |]; [right; right | right; left]; eauto.
Qed.

Lemma parseArkAuth_total (raw : string) : exists r, parseArkAuth raw = Return r.
Proof.
  unfold parseArkAuth.
  destruct (SplitN_3_shape raw) as [(a & ->) | [(a & b & ->) | (a & b & c & ->)]];
    cbn [len length Z.of_nat Pos.of_succ_nat Pos.succ Z.ltb Z.compare Pos.compare
         Pos.compare_cont index nth_error bind];
    destruct (strconv.ParseUint a) as [v0 [e0 |]]; cbn [bind returning check]; eauto;
    destruct (strconv.ParseInt b) as [v1 [e1 |]]; cbn [bind returning check]; eauto;
    destruct (hex.DecodeString c) as [v2 [e2 |]]; cbn [bind returning check]; eauto.
Qed.

(** ** The direct-client codec *)

(** An input without a colon whose only part is a number makes the second
    guard of [parseContractAuth] read [parts[1]] of a one-element slice. *)
Lemma parseContractAuth_one_part (raw : string) :
  strings.cut ":" raw = None -> snd (strconv.ParseUint raw) = None ->
  parseContractAuth raw = Panic "index out of range".
Proof.
  intros Hcut Hnum. unfold parseContractAuth. cbn [strings.SplitN]. rewrite Hcut.
  cbn [len length Z.of_nat Pos.of_succ_nat Z.ltb Z.compare index nth_error bind].
  destruct (strconv.ParseUint raw) as [v [e |]]; [discriminate Hnum | reflexivity].
Qed.

(** C7 (code bug): on the input [7], which has no colon, [parseContractAuth]
    panics instead of returning an error or a proof. *)
Theorem parseContractAuth_no_colon_panics :
  parseContractAuth "7" = Panic "index out of range".
Proof. reflexivity. Qed.

(** ** The rate limiter registry *)

Lemma Allow_burst (lim : rate.Limiter) (now : Z) :
  rate.burst (snd (rate.Allow lim now)) = rate.burst lim.
Proof.
  unfold rate.Allow. destruct (rate.limit lim); [reflexivity |].
  destruct (_ && _); reflexivity.
Qed.

Lemma Allow_limit (lim : rate.Limiter) (now : Z) :
  rate.limit (snd (rate.Allow lim now)) = rate.limit lim.
Proof.
  unfold rate.Allow. destruct (rate.limit lim) eqn:E; [exact E |].
  destruct (_ && _); [reflexivity | exact E].
Qed.

(** A bucket that refills one token per [interval] grants a call exactly
    when its level is at least one token. *)
Lemma Allow_iff_token (lim : rate.Limiter) (interval now : Z) :
  rate.limit lim = rate.Per interval -> 0 < interval ->
  (fst (rate.Allow lim now) = true <-> interval <= rate.advance lim interval now).
Proof.
  intros Hl Hi. unfold rate.Allow. rewrite Hl.
  assert (Hcap : rate.advance lim interval now <= rate.burst lim * interval)
    by (unfold rate.advance; lia).
  destruct ((1 <=? rate.burst lim) && (0 <=? rate.advance lim interval now - interval)) eqn:E;
    cbn [fst].
  - apply andb_true_iff in E as [_ E]. apply Z.leb_le in E. split; [lia | reflexivity].
  - split; [discriminate |]. intros Hge. apply andb_false_iff in E as [E | E].
    + apply Z.leb_gt in E. nia.
    + apply Z.leb_gt in E. lia.
Qed.

(** The level grows by one unit per nanosecond, one token per [interval],
    and stops at the burst. *)
Lemma advance_refill (lim : rate.Limiter) (interval t d : Z) :
  rate.last lim <= t -> 0 <= d -> t + d - rate.last lim <= rate.maxDuration ->
  rate.advance lim interval (t + d) =
  Z.min (rate.advance lim interval t + d) (rate.burst lim * interval).
Proof.
  intros Ht Hd Hmax. unfold rate.advance, rate.Sub, rate.minDuration, rate.maxDuration in *.
  change (2 ^ 63) with 9223372036854775808 in *.
  replace (t + d <? rate.last lim) with false by (symmetry; apply Z.ltb_ge; lia).
  replace (t <? rate.last lim) with false by (symmetry; apply Z.ltb_ge; lia).
  lia.
Qed.

(** What [isRateLimited] does, by the limiter it consults. *)
Lemma isRateLimited_unfold (vs : gmap string rate.Limiter) (now cid : Z) (key : string) (q : Z) :
  let k := limiterKey cid key in
  let lim := match vs !! k with
             | Some l => l
             | None => rate.NewLimiter (rate.Every rate.Minute) q
             end in
  isRateLimited vs now cid key q =
  (negb (fst (rate.Allow lim now)), <[k := snd (rate.Allow lim now)]> vs).
Proof.
  cbv zeta. unfold isRateLimited.
  destruct (vs !! limiterKey cid key) as [l |] eqn:E.
  - destruct (rate.Allow l now) as [ok l']. reflexivity.
  - destruct (rate.Allow _ now) as [ok l']. cbn [fst snd].
    now rewrite insert_insert_eq.
Qed.

Lemma registry_inv_empty : registry_inv ∅.
Proof. intros k lim H. rewrite lookup_empty in H. discriminate. Qed.

Lemma registry_inv_isRateLimited (vs : gmap string rate.Limiter) (now cid : Z)
    (key : string) (q : Z) :
  registry_inv vs -> registry_inv (snd (isRateLimited vs now cid key q)).
Proof.
  intros Hinv. rewrite isRateLimited_unfold. cbn [snd]. intros k lim.
  destruct (decide (limiterKey cid key = k)) as [<- | Hne].
  - rewrite lookup_insert_eq. intros [= <-]. rewrite Allow_limit.
    destruct (vs !! limiterKey cid key) as [l |] eqn:E; [exact (Hinv _ _ E) | reflexivity].
  - rewrite lookup_insert_ne by exact Hne. apply Hinv.
Qed.

(** C3 (amended): for every key and quota [q], [isRateLimited] looks up the
    key's limiter or creates it on first use with burst [q] and a refill of
    one token per 60 seconds whatever [q] is, keeps it under the key, and
    returns true (reject) exactly when that limiter's [Allow] refuses the
    call; the call that creates a limiter with [q >= 1] is let through, and
    no other entry of the registry changes. *)
Theorem isRateLimited_token_bucket (vs : gmap string rate.Limiter) (now cid : Z)
    (key : string) (q : Z) :
  registry_inv vs ->
  let k := limiterKey cid key in
  let lim := match vs !! k with
             | Some l => l
             | None => rate.NewLimiter (rate.Every rate.Minute) q
             end in
  let limited := fst (isRateLimited vs now cid key q) in
  let vs' := snd (isRateLimited vs now cid key q) in
  rate.limit lim = rate.Per (60 * 1000000000) /\
  (vs !! k = None -> rate.burst lim = q) /\
  limited = negb (fst (rate.Allow lim now)) /\
  (vs !! k = None -> 1 <= q -> rate.Minute <= now -> limited = false) /\
  (exists lim', vs' !! k = Some lim' /\ lim' = snd (rate.Allow lim now) /\
     rate.limit lim' = rate.limit lim /\ rate.burst lim' = rate.burst lim) /\
  (forall k', k' <> k -> vs' !! k' = vs !! k') /\
  registry_inv vs'.
Proof.
  intros Hinv k lim limited vs'.
  assert (Hlim : rate.limit lim = rate.Per rate.Minute).
  { subst lim. destruct (vs !! k) as [l |] eqn:E; [exact (Hinv _ _ E) | reflexivity]. }
  assert (Hres : isRateLimited vs now cid key q =
                 (negb (fst (rate.Allow lim now)), <[k := snd (rate.Allow lim now)]> vs))
    by apply isRateLimited_unfold.
  subst limited vs'. rewrite Hres. cbn [fst snd].
  split; [exact Hlim |]. split.
  { intros E. subst lim. rewrite E. reflexivity. }
  split; [reflexivity |]. split.
  { intros E Hq Hnow. apply negb_false_iff.
    apply (Allow_iff_token lim rate.Minute now Hlim eq_refl).
    subst lim. rewrite E.
    unfold rate.advance, rate.NewLimiter, rate.Sub, rate.minDuration, rate.maxDuration,
      rate.Minute in *.
    cbn [rate.tokens rate.last rate.burst]. change (2 ^ 63) with 9223372036854775808.
    replace (now <? 0) with false by (symmetry; apply Z.ltb_ge; lia). lia. }
  split.
  { exists (snd (rate.Allow lim now)). rewrite lookup_insert_eq.
    split; [reflexivity |]. split; [reflexivity |].
    split; [apply Allow_limit | apply Allow_burst]. }
  split.
  { intros k' Hne. now rewrite lookup_insert_ne. }
  pose proof (registry_inv_isRateLimited vs now cid key q Hinv) as Hinv'.
  rewrite Hres in Hinv'. exact Hinv'.
Qed.

Lemma isRateLimited_token_bucket_witness :
  registry_inv (∅ : gmap string rate.Limiter) /\
  rate.limit (rate.NewLimiter (rate.Every rate.Minute) 2) = rate.Per (60 * 1000000000) /\
  fst (isRateLimited ∅ t0 7 "7" 2) =
  negb (fst (rate.Allow (rate.NewLimiter (rate.Every rate.Minute) 2) t0)) /\
  fst (isRateLimited ∅ t0 7 "7" 2) = false.
Proof.
  pose proof (isRateLimited_token_bucket ∅ t0 7 "7" 2 registry_inv_empty) as H.
  cbv zeta in H. destruct H as (Hl & _ & Hr & Hfirst & _).
  split; [exact registry_inv_empty |]. split; [exact Hl |]. split; [exact Hr |].
  apply Hfirst; [apply lookup_empty | lia | unfold t0, rate.Minute; lia].
Defined.

(** C3 as stated fails: with quota 2 the bucket created by [isRateLimited]
    refills one token per 60 seconds, not one per 30 seconds.  Two calls at
    [t0] empty it; 30 seconds later the third call is rejected, where the
    specification's bucket holds a token again. *)
Lemma isRateLimited_refill_counterexample :
  let t1 := t0 + 30 * 1000000000 in
  fst (isRateLimited_seq ∅ 7 "7" [(t0, 2); (t0, 2); (t1, 2)]) = [false; false; true] /\
  (rate.limit <$> snd (isRateLimited ∅ t0 7 "7" 2) !! "7-7") = Some (rate.Per (60 * 1000000000)) /\
  rate.limit (spec_NewLimiter 2) = rate.Per (30 * 1000000000) /\
  let l1 := snd (rate.Allow (spec_NewLimiter 2) t0) in
  let l2 := snd (rate.Allow l1 t0) in
  (fst (rate.Allow (spec_NewLimiter 2) t0), fst (rate.Allow l1 t0), fst (rate.Allow l2 t1)) =
  (true, true, true).
Proof. cbv zeta. repeat split; vm_compute; reflexivity. Qed.

(** On a key the registry already holds, the quota argument is not read. *)
Lemma isRateLimited_existing (vs : gmap string rate.Limiter) (now cid : Z)
    (key : string) (q : Z) (lim : rate.Limiter) :
  vs !! limiterKey cid key = Some lim ->
  isRateLimited vs now cid key q =
  (negb (fst (rate.Allow lim now)), <[limiterKey cid key := snd (rate.Allow lim now)]> vs).
Proof.
  intros E. pose proof (isRateLimited_unfold vs now cid key q) as H.
  cbv zeta in H. now rewrite E in H.
Qed.

Lemma isRateLimited_seq_existing (cid : Z) (key : string) (calls : list (Z * Z)) :
  forall (vs : gmap string rate.Limiter) (lim : rate.Limiter),
    vs !! limiterKey cid key = Some lim ->
    (exists lim', snd (isRateLimited_seq vs cid key calls) !! limiterKey cid key = Some lim' /\
                  rate.burst lim' = rate.burst lim) /\
    forall calls', map fst calls = map fst calls' ->
      isRateLimited_seq vs cid key calls = isRateLimited_seq vs cid key calls'.
Proof.
  induction calls as [| [now q] calls IH]; intros vs lim E.
  - split; [exists lim; split; [exact E | reflexivity] |].
    intros [| c calls'] Hmap; [reflexivity | discriminate Hmap].
  - cbn [isRateLimited_seq].
    rewrite (isRateLimited_existing vs now cid key q lim E).
    set (vs1 := <[limiterKey cid key := snd (rate.Allow lim now)]> vs).
    assert (E1 : vs1 !! limiterKey cid key = Some (snd (rate.Allow lim now)))
      by apply lookup_insert_eq.
    destruct (IH vs1 _ E1) as [(lim' & Hl & Hb) Hq].
    split.
    + exists lim'. destruct (isRateLimited_seq vs1 cid key calls) as [bs vs2].
      split; [exact Hl | now rewrite Hb, Allow_burst].
    + intros [| [now' q'] calls'] Hmap; [discriminate Hmap |].
      cbn [map fst] in Hmap. injection Hmap as <- Hmap.
      cbn [isRateLimited_seq].
      rewrite (isRateLimited_existing vs now cid key q' lim E).
      fold vs1. now rewrite (Hq calls' Hmap).
Qed.

(** C10: the call that creates a key's limiter fixes its burst at that
    call's quota; over any later calls for the key the burst stays there, and
    what those calls return and leave behind does not depend on the quotas
    they pass. *)
Theorem isRateLimited_quota_fixed_at_creation (vs : gmap string rate.Limiter)
    (cid : Z) (key : string) (now q : Z) (calls : list (Z * Z)) :
  vs !! limiterKey cid key = None ->
  let vs1 := snd (isRateLimited vs now cid key q) in
  (rate.burst <$> vs1 !! limiterKey cid key) = Some q /\
  (rate.burst <$> snd (isRateLimited_seq vs1 cid key calls) !! limiterKey cid key) = Some q /\
  forall calls', map fst calls = map fst calls' ->
    isRateLimited_seq vs1 cid key calls = isRateLimited_seq vs1 cid key calls'.
Proof.
  intros E vs1.
  assert (E1 : vs1 !! limiterKey cid key =
               Some (snd (rate.Allow (rate.NewLimiter (rate.Every rate.Minute) q) now))).
  { subst vs1. pose proof (isRateLimited_unfold vs now cid key q) as H. cbv zeta in H.
    rewrite E in H. rewrite H. cbn [snd]. apply lookup_insert_eq. }
  destruct (isRateLimited_seq_existing cid key calls vs1 _ E1) as [(lim' & Hl & Hb) Hq].
  split; [rewrite E1; cbn; now rewrite Allow_burst |].
  split; [| exact Hq].
  rewrite Hl. cbn. now rewrite Hb, Allow_burst.
Qed.

Lemma isRateLimited_quota_fixed_at_creation_witness :
  let vs1 := snd (isRateLimited ∅ t0 7 "7" 2) in
  (∅ : gmap string rate.Limiter) !! limiterKey 7 "7" = None /\
  (rate.burst <$> snd (isRateLimited_seq vs1 7 "7" [(t0, 50); (t0, 50)]) !! limiterKey 7 "7") = Some 2 /\
  isRateLimited_seq vs1 7 "7" [(t0, 50); (t0, 50)] = isRateLimited_seq vs1 7 "7" [(t0, 2); (t0, 1)].
Proof.
  cbv zeta.
  pose proof (isRateLimited_quota_fixed_at_creation ∅ 7 "7" t0 2 [(t0, 50); (t0, 50)]
                (lookup_empty _)) as H.
  cbv zeta in H. destruct H as (_ & Hb & Hq).
  split; [apply lookup_empty |]. split; [exact Hb |].
  exact (Hq [(t0, 2); (t0, 1)] eq_refl).
Defined.

Example isRateLimited_quota_raised_later :
  fst (isRateLimited_seq ∅ 7 "7" [(t0, 1); (t0, 100)]) = [false; true].
Proof. vm_compute. reflexivity. Qed.

Section PipelineProperties.

Context {M C Addr PK : Type}.
Context `{!ContractCache M} `{!ClaimCache C} `{!Ledger Addr PK}.

(** ** The direct-client validator *)

(** C8: [ContractAuth.Validate] rejects contract id 0, rejects a timestamp
    not above [lastTimestamp], and otherwise accepts exactly when the
    client's bech32 account key decodes and verifies the signature over
    [<contractId>:<timestamp>]; every failure is an error value. *)
Theorem ContractAuth_Validate_spec (auth : ContractAuth.t) (lastTimestamp : Z)
    (client : PubKey) :
  let id := ContractAuth.ContractId auth in
  let ts := ContractAuth.Timestamp auth in
  let decoded := GetPubKeyFromBech32 Bech32PubKeyTypeAccPub client in
  (id = 0 ->
   ContractAuth_Validate auth lastTimestamp client =
   Some (Errorf "contract id cannot be zero")) /\
  (id <> 0 -> ts <= lastTimestamp ->
   ContractAuth_Validate auth lastTimestamp client =
   Some (Errorf ("timestamp must be larger than " +:+ strconv.FormatInt lastTimestamp))) /\
  (id <> 0 -> lastTimestamp < ts ->
   forall e, snd decoded = Some e ->
   ContractAuth_Validate auth lastTimestamp client = Some e) /\
  (id <> 0 -> lastTimestamp < ts -> snd decoded = None ->
   VerifySignature (fst decoded) (GenerateMessageToSign id ts)
     (ContractAuth.Signature auth) = false ->
   ContractAuth_Validate auth lastTimestamp client = Some (Errorf "invalid signature")) /\
  (ContractAuth_Validate auth lastTimestamp client = None <->
   id <> 0 /\ lastTimestamp < ts /\ snd decoded = None /\
   VerifySignature (fst decoded) (GenerateMessageToSign id ts)
     (ContractAuth.Signature auth) = true).
Proof.
  cbv zeta. unfold ContractAuth_Validate, GenerateMessageToSign.
  destruct (ContractAuth.ContractId auth =? 0) eqn:Hid;
    [apply Z.eqb_eq in Hid; settle |].
  apply Z.eqb_neq in Hid.
  destruct (ContractAuth.Timestamp auth <=? lastTimestamp) eqn:Hts;
    [apply Z.leb_le in Hts; settle |].
  apply Z.leb_gt in Hts.
  destruct (GetPubKeyFromBech32 Bech32PubKeyTypeAccPub client) as [pk [e |]];
    cbn [fst snd]; [settle |].
  destruct (VerifySignature pk _ _) eqn:Hv; cbn [negb]; settle.
Qed.

(** ** The paid tier *)

(** C9: [paidTier] writes on its success path only.  When it returns 200
    the claim has been stored and the contract written back with the proof's
    nonce; when it returns anything else, the claim store and the contract
    cache are as they were. *)
Theorem paidTier_writes_only_on_success (p : State M C) (now : Z) (aa : ArkAuth.t)
    (remoteAddr : string) (code : Z) (err : option error) (p' : State M C) :
  paidTier p now aa remoteAddr = Return (code, err, p') ->
  (code = StatusOK /\ err = None /\
   ClaimStore_Set (ClaimStore p) (committedClaim p aa) = inl (ClaimStore p') /\
   MemStore p' =
   MemStore_Put (MemStore p)
     (Contract.withNonce
        (fst (MemStore_Get (MemStore p) (strconv.FormatUint (ArkAuth.ContractId aa))))
        (ArkAuth.Nonce aa))) \/
  (code <> StatusOK /\ err <> None /\
   ClaimStore p' = ClaimStore p /\ MemStore p' = MemStore p).
Proof.
  unfold paidTier, committedClaim, Int_Int64. paid_cases;
    first [discriminate | intros [= <- <- <-]];
    first [left; repeat split; assumption | right; repeat split; discriminate].
Qed.

(** C1 (amended): when a claim with nonce [N] is recorded for the proof's
    contract, [paidTier] never accepts a proof whose nonce is [<= N],
    whatever its signature; the rejection is 400 once the contract is found
    and not expired.  The contract's own nonce is not compared. *)
Theorem paidTier_rejects_replay (p : State M C) (now : Z) (aa : ArkAuth.t)
    (remoteAddr : string) (claim : Claim.t) :
  let key := strconv.FormatUint (ArkAuth.ContractId aa) in
  ClaimStore_Has (ClaimStore p) key = true ->
  ClaimStore_Get (ClaimStore p) key = (claim, None) ->
  ArkAuth.Nonce aa <= Claim.Nonce claim ->
  (forall code p', paidTier p now aa remoteAddr <> Return (code, None, p')) /\
  (forall contract,
     MemStore_Get (MemStore p) key = (contract, None) ->
     IsExpired contract (MemStore_GetHeight (MemStore p)) = false ->
     paidTier p now aa remoteAddr =
     Return (StatusBadRequest,
             Some (Errorf ("bad nonce (" +:+ strconv.FormatInt (ArkAuth.Nonce aa) +:+ "/" +:+
                           strconv.FormatInt (Claim.Nonce claim) +:+ ")")), p)).
Proof.
  intros key Hhas Hget Hle. subst key. unfold paidTier. rewrite Hhas, Hget.
  apply Z.leb_le in Hle. rewrite Hle. split.
  - intros code p'.
    destruct (MemStore_Get (MemStore p) _) as [contract [e |]]; cbn [bind returning];
      [discriminate |].
    destruct (IsExpired contract _); cbn [bind returning]; discriminate.
  - intros contract Hc Hexp. rewrite Hc. cbn [bind returning]. rewrite Hexp. reflexivity.
Qed.

(** C2 (amended): for a pay-as-you-go contract that is cached, not expired
    and not replayed, with rate [R] and [n * R] within [int64], [paidTier]
    answers 402 when the deposit is unset or below [n * R] for the proof's
    nonce [n]; otherwise, the boundary [D = n * R] included, the request
    passes the deposit check, and it is accepted when the limiter grants it
    and the claim can be stored. *)
Theorem paidTier_deposit_gate (p : State M C) (now : Z) (aa : ArkAuth.t)
    (remoteAddr : string) (contract : Contract.t) :
  let key := strconv.FormatUint (ArkAuth.ContractId aa) in
  let n := ArkAuth.Nonce aa in
  let R := Contract.Rate contract in
  MemStore_Get (MemStore p) key = (contract, None) ->
  IsExpired contract (MemStore_GetHeight (MemStore p)) = false ->
  Contract.Type_ contract = PAY_AS_YOU_GO ->
  (ClaimStore_Has (ClaimStore p) key = true ->
   snd (ClaimStore_Get (ClaimStore p) key) = None /\
   Claim.Nonce (fst (ClaimStore_Get (ClaimStore p) key)) < n) ->
  is_int64 R -> is_int64 (n * R) ->
  ((Contract.Deposit contract = None \/
    exists D, Contract.Deposit contract = Some D /\ D < n * R) ->
   paidTier p now aa remoteAddr =
   Return (StatusPaymentRequired, Some (Errorf "contract spent"), p)) /\
  (fst (isRateLimited (visitors p) now (Contract.Id contract) key
          (Contract.QueriesPerMinute contract)) = false ->
   (exists c, ClaimStore_Set (ClaimStore p) (committedClaim p aa) = inl c) ->
   ((exists p', paidTier p now aa remoteAddr = Return (StatusOK, None, p')) <->
    exists D, Contract.Deposit contract = Some D /\ n * R <= D)).
Proof.
  intros key n R Hc Hexp Hty Hclaim HR HnR. subst key n R.
  assert (Hrate : Int_Int64 (R := Z * option error * State M C) (Contract.Rate contract) =
                  Continue (Contract.Rate contract)).
  { unfold Int_Int64. destruct HR as [Hlo Hhi].
    apply Z.leb_le in Hlo, Hhi. now rewrite Hlo, Hhi. }
  pose proof (wrap_int64_small _ HnR) as Hmul.
  fold (mul_int64 (ArkAuth.Nonce aa) (Contract.Rate contract)) in Hmul.
  unfold paidTier, committedClaim. rewrite Hc. cbn [bind returning]. rewrite Hexp, Hty.
  cbn [bind returning].
  destruct (ClaimStore_Has (ClaimStore p) _);
    [destruct (Hclaim eq_refl) as [Herr Hlt];
     destruct (ClaimStore_Get (ClaimStore p) _) as [cl err]; cbn [fst snd] in Herr, Hlt |- *;
     subst err; apply Z.leb_gt in Hlt; rewrite Hlt | clear Hclaim];
    cbn [bind returning]; rewrite Hrate; cbn [bind].
  all: split;
    [ intros [Hnone | (D & HD & Hlt')];
      [ rewrite Hnone; reflexivity
      | rewrite HD; cbn [bind]; rewrite Hmul; apply Z.ltb_lt in Hlt'; now rewrite Hlt' ]
    | intros Hlim (c & Hset);
      destruct (Contract.Deposit contract) as [D |]; cbn [bind returning];
      [ rewrite Hmul;
        destruct (D <? ArkAuth.Nonce aa * Contract.Rate contract) eqn:Hcmp; cbn [bind returning];
        [ apply Z.ltb_lt in Hcmp; split; [intros (p' & [=]) | intros (D' & [= <-] & Hle); lia]
        | apply Z.ltb_ge in Hcmp;
          destruct (isRateLimited _ _ _ _ _) as [limited v]; cbn [fst] in Hlim; subst limited;
          cbn [bind returning ClaimStore with_visitors]; rewrite Hset; cbn [bind returning];
          split; intros _; eauto ]
      | split; [intros (p' & [=]) | intros (D & [=] & _)] ] ].
Qed.

(** C4 (amended): [paidTier] does not read the caller's address.  It applies
    the contract's [QueriesPerMinute] under the registry key made of the
    contract's id and the decimal contract id of the proof, and touches no
    other entry of the registry, so every visitor of a contract draws on the
    same bucket. *)
Theorem paidTier_limiter_key (p : State M C) (now : Z) (aa : ArkAuth.t)
    (remoteAddr remoteAddr' : string) :
  let key := strconv.FormatUint (ArkAuth.ContractId aa) in
  let contract := fst (MemStore_Get (MemStore p) key) in
  let metered :=
    snd (isRateLimited (visitors p) now (Contract.Id contract) key
           (Contract.QueriesPerMinute contract)) in
  paidTier p now aa remoteAddr = paidTier p now aa remoteAddr' /\
  forall code err p',
    paidTier p now aa remoteAddr = Return (code, err, p') ->
    (visitors p' = visitors p \/ visitors p' = metered) /\
    (code = StatusOK \/ code = StatusTooManyRequests -> visitors p' = metered) /\
    (forall k, k <> limiterKey (Contract.Id contract) key -> visitors p' !! k = visitors p !! k).
Proof.
  cbv zeta. split; [reflexivity |]. intros code err p'.
  pose proof (isRateLimited_unfold (visitors p) now
                (Contract.Id (fst (MemStore_Get (MemStore p)
                                     (strconv.FormatUint (ArkAuth.ContractId aa)))))
                (strconv.FormatUint (ArkAuth.ContractId aa))
                (Contract.QueriesPerMinute
                   (fst (MemStore_Get (MemStore p)
                           (strconv.FormatUint (ArkAuth.ContractId aa)))))) as Hm.
  cbv zeta in Hm. revert Hm.
  unfold paidTier, Int_Int64. paid_cases; intros Hm;
    first [discriminate | intros [= <- <- <-]];
    cbn [visitors with_visitors with_MemStore with_ClaimStore];
    unfold StatusOK, StatusTooManyRequests, StatusInternalServerError, StatusBadRequest,
      StatusPaymentRequired.
  all: repeat split; auto.
  all: try (intros [? | ?]; discriminate).
  all: try (intros k Hk; injection Hm as _ ->; now rewrite lookup_insert_ne).
Qed.

(** ** The handler *)

Lemma enableCORS_keeps (w : ResponseWriter) (cors : CORs) :
  Status (enableCORS w cors) = Status w /\
  Body (enableCORS w cors) = Body w /\
  served (enableCORS w cors) = served w /\
  Header (enableCORS w cors) !! "tier" = Header w !! "tier".
Proof.
  unfold enableCORS.
  destruct (0 <? len (AllowOrigins cors)), (0 <? len (AllowMethods cors)),
    (0 <? len (AllowHeaders cors));
    cbn [Header_Set Status Body served Header]; repeat split;
    rewrite ?lookup_insert_ne by discriminate; reflexivity.
Qed.

(** The policy block either lets the request through, having set CORS
    headers and possibly drawn on the per-user limiter, or ends it with 403
    or 429; it does not touch the stores and does not panic. *)
Lemma contractPolicy_spec (p : State M C) (now : Z) (w : ResponseWriter)
    (contract : Contract.t) (remoteAddr : string) :
  match contractPolicy p now w contract remoteAddr with
  | Continue (w1, p1) =>
      Status w1 = Status w /\ served w1 = served w /\
      Header w1 !! "tier" = Header w !! "tier" /\
      Config p1 = Config p /\ MemStore p1 = MemStore p /\ ClaimStore p1 = ClaimStore p
  | Finish (w1, p1) =>
      (Status w1 = Some StatusForbidden \/ Status w1 = Some StatusTooManyRequests) /\
      served w1 = served w /\ Header w1 !! "tier" = Header w !! "tier" /\
      MemStore p1 = MemStore p /\ ClaimStore p1 = ClaimStore p
  | Abort _ => False
  end.
Proof.
  unfold contractPolicy.
  destruct (enableCORS_keeps w
              (CORs_ (fst (ContractConfigStore_Get p (Contract.Id contract)))))
    as (Hs & Hb & Hv & Ht).
  destruct (0 <? Contract.Id contract); [| repeat split].
  destruct (ContractConfigStore_Get p (Contract.Id contract)) as [conf cerr].
  cbn [fst] in *.
  destruct (0 <? len (WhitelistIPAddresses conf)).
  - destruct (negb (whitelisted remoteAddr (WhitelistIPAddresses conf))); cbn [bind].
    { cbn [http_Error Status served Header].
      rewrite !lookup_insert_ne by discriminate. repeat split; auto. }
    destruct (0 <? PerUserRateLimit conf); [| repeat split; auto].
    destruct (isRateLimited _ _ _ _ _) as [[|] v];
      cbn [http_Error Status served Header with_visitors Config MemStore ClaimStore];
      rewrite ?lookup_insert_ne by discriminate; repeat split; auto.
  - cbn [bind].
    destruct (0 <? PerUserRateLimit conf); [| repeat split; auto].
    destruct (isRateLimited _ _ _ _ _) as [[|] v];
      cbn [http_Error Status served Header with_visitors Config MemStore ClaimStore];
      rewrite ?lookup_insert_ne by discriminate; repeat split; auto.
Qed.

(** C5 (amended): a request whose proof parses but does not validate, for a
    contract whose authorization is restricted, is never served at paid
    tier: the stores are not written and the [tier] header is not [paid].
    When the contract's policy block lets the request through, the free path
    decides: the request is forwarded with [tier: free] if the free-tier
    limiter grants it, and gets 429 otherwise.  When the policy block ends
    the request (403 or 429), it is not forwarded. *)
Theorem auth_invalid_proof_free_tier (p : State M C) (now : Z) (r : Request)
    (raw : string) (aa : ArkAuth.t) (contract : Contract.t) (err : option error)
    (e : error) :
  Query_arkauth r = Some raw ->
  parseArkAuth raw = Return (aa, None) ->
  MemStore_Get (MemStore p) (strconv.FormatUint (ArkAuth.ContractId aa)) = (contract, err) ->
  Contract.Authorization contract = STRICT ->
  ArkAuth_Validate aa (ProviderPubKey (Config p)) = Some e ->
  exists w' p',
    auth p now r = Return (w', p') /\
    Header w' !! "tier" <> Some "paid" /\
    MemStore p' = MemStore p /\ ClaimStore p' = ClaimStore p /\
    match contractPolicy p now newResponseWriter contract (getRemoteAddr r) with
    | Continue (w1, p1) =>
        Header w' !! "tier" = Some "free" /\
        if fst (isRateLimited (visitors p1) now 0 (getRemoteAddr r)
                  (FreeTierRateLimit (Config p)))
        then Status w' = Some StatusTooManyRequests /\ served w' = false
        else Status w' = None /\ served w' = true
    | Finish (w1, p1) =>
        w' = w1 /\ served w' = false /\
        (Status w' = Some StatusForbidden \/ Status w' = Some StatusTooManyRequests)
    | Abort _ => False
    end.
Proof.
  intros Hq Hparse Hget Hauth Hval. unfold auth. rewrite Hq, Hparse.
  cbn [call bind snd fst]. rewrite Hget.
  pose proof (contractPolicy_spec p now newResponseWriter contract (getRemoteAddr r)) as Hpol.
  destruct (contractPolicy p now newResponseWriter contract (getRemoteAddr r))
    as [[w1 p1] | [w1 p1] |]; cbn [bind returning]; [| | contradiction].
  - destruct Hpol as (Hs & Hv & Ht & Hc & Hm & Hcl).
    assert (Hel : eligible p1 aa contract err = false).
    { unfold eligible. destruct err; [reflexivity |]. now rewrite Hauth, Hc, Hval. }
    rewrite Hel. cbn [bind]. unfold freeTier. rewrite Hc.
    destruct (isRateLimited (visitors p1) now 0 (getRemoteAddr r) _) as [[|] v];
      cbn [bind returning fst]; eexists; eexists; (split; [reflexivity |]);
      cbn [http_Error ServeHTTP Header_Set Header Status served with_visitors
           MemStore ClaimStore];
      rewrite ?lookup_insert_ne by discriminate;
      rewrite lookup_insert_eq; repeat split; auto; discriminate.
  - destruct Hpol as (Hst & Hv & Ht & Hm & Hcl).
    exists w1, p1. split; [reflexivity |].
    rewrite Ht. cbn [newResponseWriter Header]. rewrite lookup_empty.
    repeat split; auto.
Qed.

End PipelineProperties.

(** ** The pipeline on the example gateway *)

Lemma paidTier_rejects_replay_witness :
  let p := gateway contract7 {["7" := claim9]} in
  let aa := ArkAuth.mk 7 "" 3 [Byte.x01] in
  ClaimStore_Has (ClaimStore p) "7" = true /\
  ClaimStore_Get (ClaimStore p) "7" = (claim9, None) /\
  ArkAuth.Nonce aa <= Claim.Nonce claim9 /\
  paidTier p t0 aa "10.0.0.2" =
  Return (StatusBadRequest, Some (Errorf "bad nonce (3/9)"), p).
Proof.
  cbv zeta.
  assert (Hhas : ClaimStore_Has (ClaimStore (gateway contract7 {["7" := claim9]})) "7" = true)
    by (vm_compute; reflexivity).
  assert (Hget : ClaimStore_Get (ClaimStore (gateway contract7 {["7" := claim9]})) "7" =
                 (claim9, None)) by (vm_compute; reflexivity).
  assert (Hle : 3 <= 9) by lia.
  split; [exact Hhas |]. split; [exact Hget |]. split; [exact Hle |].
  exact (proj2 (paidTier_rejects_replay (gateway contract7 {["7" := claim9]}) t0
                  (ArkAuth.mk 7 "" 3 [Byte.x01]) "10.0.0.2" claim9 Hhas Hget Hle)
           contract7 eq_refl eq_refl).
Defined.

(** C1 as stated fails.  A subscription whose ledger nonce is 5 and for
    which no claim is recorded accepts a proof with nonce 3; and for an
    expired contract with a recorded claim of nonce 9, a proof with nonce 3
    is answered 402, not 400. *)
Lemma paidTier_nonce_counterexample :
  let aa := ArkAuth.mk 7 "" 3 [Byte.x01] in
  Contract.Nonce subscription7 = 5 /\
  (exists p', paidTier (gateway subscription7 ∅) t0 aa "10.0.0.2" =
              Return (StatusOK, None, p')) /\
  let expired := gatewayAt 2000 contract7 {["7" := claim9]} ∅ in
  paidTier expired t0 aa "10.0.0.2" =
  Return (StatusPaymentRequired, Some (Errorf "open a contract"), expired).
Proof.
  cbv zeta. split; [reflexivity |]. split; [| vm_compute; reflexivity].
  eexists. vm_compute. reflexivity.
Qed.

Lemma paidTier_deposit_gate_witness :
  let p := gateway contract7 ∅ in
  let aa := ArkAuth.mk 7 "" 10 [Byte.x01] in
  MemStore_Get (MemStore p) "7" = (contract7, None) /\
  IsExpired contract7 (MemStore_GetHeight (MemStore p)) = false /\
  Contract.Type_ contract7 = PAY_AS_YOU_GO /\
  Contract.Deposit contract7 = Some (10 * 10) /\
  exists p', paidTier p t0 aa "10.0.0.2" = Return (StatusOK, None, p').
Proof.
  cbv zeta.
  assert (Hget : MemStore_Get (MemStore (gateway contract7 ∅)) "7" = (contract7, None))
    by (vm_compute; reflexivity).
  assert (Hexp : IsExpired contract7 (MemStore_GetHeight (MemStore (gateway contract7 ∅))) = false)
    by (vm_compute; reflexivity).
  assert (Hclaim : ClaimStore_Has (ClaimStore (gateway contract7 ∅)) "7" = true ->
                   snd (ClaimStore_Get (ClaimStore (gateway contract7 ∅)) "7") = None /\
                   Claim.Nonce (fst (ClaimStore_Get (ClaimStore (gateway contract7 ∅)) "7")) < 10)
    by (intros H; vm_compute in H; discriminate H).
  assert (HR : is_int64 10) by (unfold is_int64, minInt64, maxInt64; cbn; lia).
  assert (HnR : is_int64 (10 * 10)) by (unfold is_int64, minInt64, maxInt64; cbn; lia).
  assert (Hlim : fst (isRateLimited (visitors (gateway contract7 ∅)) t0 (Contract.Id contract7)
                        "7" (Contract.QueriesPerMinute contract7)) = false)
    by (vm_compute; reflexivity).
  assert (Hset : exists c, ClaimStore_Set (ClaimStore (gateway contract7 ∅))
                             (committedClaim (gateway contract7 ∅)
                                (ArkAuth.mk 7 "" 10 [Byte.x01])) = inl c)
    by (eexists; reflexivity).
  split; [exact Hget |]. split; [exact Hexp |]. split; [reflexivity |].
  split; [reflexivity |].
  apply (proj2 (paidTier_deposit_gate (gateway contract7 ∅) t0 (ArkAuth.mk 7 "" 10 [Byte.x01])
                  "10.0.0.2" contract7 Hget Hexp eq_refl Hclaim HR HnR) Hlim Hset).
  exists 100. split; [reflexivity | cbn; lia].
Defined.

(** C2 as stated fails.  With deposit 100 and rate 10 and a claim of nonce
    20 on record, a proof with nonce 5 is turned away although
    [100 >= 5 * 10], and a proof with nonce 11 gets 400, not 402, although
    [100 < 11 * 10]: the replay check comes first. *)
Lemma paidTier_deposit_counterexample :
  let p := gateway contract7 {["7" := Claim.mk 7 "client" 20 "01" false]} in
  Contract.Type_ contract7 = PAY_AS_YOU_GO /\
  Contract.Deposit contract7 = Some 100 /\ Contract.Rate contract7 = 10 /\
  paidTier p t0 (ArkAuth.mk 7 "" 5 [Byte.x01]) "10.0.0.2" =
  Return (StatusBadRequest, Some (Errorf "bad nonce (5/20)"), p) /\
  paidTier p t0 (ArkAuth.mk 7 "" 11 [Byte.x01]) "10.0.0.2" =
  Return (StatusBadRequest, Some (Errorf "bad nonce (11/20)"), p).
Proof. cbv zeta. repeat split; vm_compute; reflexivity. Qed.

(** The product [n * R] is taken in [int64]: with rate 4, nonce [2^62] and
    an empty deposit the product wraps to 0 and the request is accepted. *)
Example paidTier_deposit_overflow :
  let c := Contract.mk "provider" 1 "client" "" PAY_AS_YOU_GO 0 1000 4 (Some 0) 0 7 10 STRICT 1 in
  mul_int64 (2 ^ 62) 4 = 0 /\
  exists p', paidTier (gateway c ∅) t0 (ArkAuth.mk 7 "" (2 ^ 62) [Byte.x01]) "10.0.0.2" =
             Return (StatusOK, None, p').
Proof. cbv zeta. split; [reflexivity |]. eexists. vm_compute. reflexivity. Qed.

(** C4 as stated fails.  Visitor 1.1.1.1 is served on contract 7 (one query
    per minute); at the same instant visitor 2.2.2.2, with the next nonce, is
    rate-limited: both were metered under the one entry [7-7], and the
    registry holds no entry for either address. *)
Lemma paidTier_visitors_share_limiter :
  match paidTier (gateway subscription7 ∅) t0 (ArkAuth.mk 7 "" 6 [Byte.x01]) "1.1.1.1" with
  | Return (code1, err1, p1) =>
      code1 = StatusOK /\ err1 = None /\
      match paidTier p1 t0 (ArkAuth.mk 7 "" 7 [Byte.x01]) "2.2.2.2" with
      | Return (code2, err2, p2) =>
          code2 = StatusTooManyRequests /\
          visitors p2 !! limiterKey 7 "1.1.1.1" = None /\
          visitors p2 !! limiterKey 7 "2.2.2.2" = None /\
          dom (visitors p2) = {["7-7"]}
      | Panic _ => False
      end
  | Panic _ => False
  end.
Proof. vm_compute. repeat split. Qed.

Lemma paidTier_writes_only_on_success_witness :
  let p := gateway contract7 ∅ in
  let aa := ArkAuth.mk 7 "" 11 [Byte.x01] in
  paidTier p t0 aa "10.0.0.2" =
  Return (StatusPaymentRequired, Some (Errorf "contract spent"), p) /\
  ((StatusPaymentRequired = StatusOK /\ Some (Errorf "contract spent") = None /\
    ClaimStore_Set (ClaimStore p) (committedClaim p aa) = inl (ClaimStore p) /\
    MemStore p =
    MemStore_Put (MemStore p)
      (Contract.withNonce (fst (MemStore_Get (MemStore p) (strconv.FormatUint 7))) 11)) \/
   (StatusPaymentRequired <> StatusOK /\ Some (Errorf "contract spent") <> None /\
    ClaimStore p = ClaimStore p /\ MemStore p = MemStore p)).
Proof.
  cbv zeta.
  assert (Hrun : paidTier (gateway contract7 ∅) t0 (ArkAuth.mk 7 "" 11 [Byte.x01]) "10.0.0.2" =
                 Return (StatusPaymentRequired, Some (Errorf "contract spent"),
                         gateway contract7 ∅)) by (vm_compute; reflexivity).
  split; [exact Hrun |].
  exact (paidTier_writes_only_on_success _ _ _ _ _ _ _ Hrun).
Defined.

Lemma auth_invalid_proof_free_tier_witness :
  let p := gateway contract7 ∅ in
  let r := mkRequest (Some "7:1:ff") "" "" "10.0.0.2:4711" "/btc/status" in
  let aa := ArkAuth.mk 7 "" 1 [Byte.xff] in
  parseArkAuth "7:1:ff" = Return (aa, None) /\
  Contract.Authorization contract7 = STRICT /\
  ArkAuth_Validate aa (ProviderPubKey (Config p)) = Some (External "invalid signature") /\
  exists w' p',
    auth p t0 r = Return (w', p') /\ Header w' !! "tier" = Some "free" /\
    Status w' = None /\ served w' = true /\
    MemStore p' = MemStore p /\ ClaimStore p' = ClaimStore p.
Proof.
  cbv zeta.
  set (p := gateway contract7 ∅).
  set (r := mkRequest (Some "7:1:ff") "" "" "10.0.0.2:4711" "/btc/status").
  set (aa := ArkAuth.mk 7 "" 1 [Byte.xff]).
  assert (Hparse : parseArkAuth "7:1:ff" = Return (aa, None)) by reflexivity.
  assert (Hget : MemStore_Get (MemStore p) (strconv.FormatUint (ArkAuth.ContractId aa)) =
                 (contract7, None)) by (vm_compute; reflexivity).
  assert (Hval : ArkAuth_Validate aa (ProviderPubKey (Config p)) =
                 Some (External "invalid signature")) by reflexivity.
  split; [exact Hparse |]. split; [reflexivity |]. split; [exact Hval |].
  destruct (auth_invalid_proof_free_tier p t0 r "7:1:ff" aa contract7 None
              (External "invalid signature") eq_refl Hparse Hget eq_refl Hval)
    as (w' & p' & Hrun & Hnp & Hm & Hc & Hpol).
  assert (Hp : contractPolicy p t0 newResponseWriter contract7 (getRemoteAddr r) =
               Continue (newResponseWriter, p)) by (vm_compute; reflexivity).
  rewrite Hp in Hpol.
  assert (Hf : fst (isRateLimited (visitors p) t0 0 (getRemoteAddr r)
                      (FreeTierRateLimit (Config p))) = false) by (vm_compute; reflexivity).
  rewrite Hf in Hpol. destruct Hpol as (Ht & Hs & Hv).
  exists w', p'. repeat split; assumption.
Defined.

(** C5 as stated fails.  Contract 7 admits only 10.0.0.1; a request from
    10.0.0.2 whose proof does not validate is ended with 403 by the policy
    block: it is not forwarded and gets no [tier] header, although the
    free-tier limiter would have granted it. *)
Lemma auth_invalid_proof_forbidden :
  let p := gatewayAt 1 contract7 ∅ allowlist7 in
  let r := mkRequest (Some "7:1:ff") "" "" "10.0.0.2" "/btc/status" in
  let aa := ArkAuth.mk 7 "" 1 [Byte.xff] in
  parseArkAuth "7:1:ff" = Return (aa, None) /\
  Contract.Authorization contract7 = STRICT /\
  ArkAuth_Validate aa (ProviderPubKey (Config p)) = Some (External "invalid signature") /\
  fst (isRateLimited (visitors p) t0 0 (getRemoteAddr r) (FreeTierRateLimit (Config p))) = false /\
  auth p t0 r =
  Return (http_Error newResponseWriter (Errorf "Forbidden") StatusForbidden, p) /\
  served (http_Error newResponseWriter (Errorf "Forbidden") StatusForbidden) = false /\
  Header (http_Error newResponseWriter (Errorf "Forbidden") StatusForbidden) !! "tier" = None.
Proof. cbv zeta. repeat split; vm_compute; reflexivity. Qed.

(** ** The codecs on examples *)

Example FormatUint_7 : strconv.FormatUint 7 = "7".
Proof. reflexivity. Qed.

Example FormatUint_max : strconv.FormatUint maxUint64 = "18446744073709551615".
Proof. reflexivity. Qed.

Example FormatInt_min : strconv.FormatInt minInt64 = "-9223372036854775808".
Proof. reflexivity. Qed.

Example ParseInt_min : strconv.ParseInt "-9223372036854775808" = (minInt64, None).
Proof. reflexivity. Qed.

Example ParseInt_over :
  strconv.ParseInt "9223372036854775808" =
  (maxInt64, Some (NumError "ParseInt" "9223372036854775808" ErrRange)).
Proof. reflexivity. Qed.

Example ParseUint_letters :
  strconv.ParseUint "12a" = (0, Some (NumError "ParseUint" "12a" ErrSyntax)).
Proof. reflexivity. Qed.

Example EncodeToString_dead :
  hex.EncodeToString [Byte.xde; Byte.xad; Byte.x0f] = "dead0f".
Proof. reflexivity. Qed.

Example DecodeString_upper :
  hex.DecodeString "DEad0F" = ([Byte.xde; Byte.xad; Byte.x0f], None).
Proof. reflexivity. Qed.

Example DecodeString_odd : hex.DecodeString "abc" = ([Byte.xab], Some ErrLength).
Proof. reflexivity. Qed.

Example SplitN_three : strings.SplitN "7:5:ab:cd" ":" 3 = ["7"; "5"; "ab:cd"].
Proof. reflexivity. Qed.

Example SplitN_no_colon : strings.SplitN "7" ":" 3 = ["7"].
Proof. reflexivity. Qed.

Example SplitN_empty : strings.SplitN "" ":" 3 = [""].
Proof. reflexivity. Qed.

Example Split_path : strings.Split "/btc/status" "/" = [""; "btc"; "status"].
Proof. reflexivity. Qed.

Example parseArkAuth_ok :
  parseArkAuth "7:5:dead" = Return (ArkAuth.mk 7 "" 5 [Byte.xde; Byte.xad], None).
Proof. reflexivity. Qed.

Example parseArkAuth_no_colon : parseArkAuth "7" = Return (ArkAuth.mk 7 "" 0 [], None).
Proof. reflexivity. Qed.

Example parseContractAuth_ok :
  parseContractAuth "7:1700000000:dead" =
  Return (ContractAuth.mk 7 1700000000 [Byte.xde; Byte.xad], None).
Proof. reflexivity. Qed.

(** * Further properties of the codecs *)

Lemma cut_lacks (sep : ascii) (s : string) :
  strings.lacks sep s = true -> strings.cut sep s = None.
Proof.
  induction s as [| c s IH]; cbn [strings.lacks strings.cut]; [reflexivity |].
  intros Hl. apply andb_true_iff in Hl as [Hc Hs]. apply negb_true_iff in Hc.
  now rewrite Hc, IH.
Qed.

(** No decimal digit is the character [sep] when [sep] is not a digit. *)
Lemma lacks_digits (sep : ascii) (fuel : nat) :
  strconv.code sep < 48 \/ 57 < strconv.code sep ->
  forall (n : Z) (acc : string), 0 <= n ->
    strings.lacks sep acc = true -> strings.lacks sep (strconv.digits fuel n acc) = true.
Proof.
  intros Hsep. induction fuel as [| fuel IH]; intros n acc Hn Hacc; [exact Hacc |].
  cbn [strconv.digits].
  assert (Hmod : 0 <= n mod 10 < 10) by (apply Z.mod_pos_bound; lia).
  assert (Hacc' : strings.lacks sep (String (strconv.chr (48 + n mod 10)) acc) = true).
  { cbn [strings.lacks]. rewrite Hacc, andb_true_r. apply negb_true_iff, Ascii.eqb_neq.
    intros Heq. apply (f_equal strconv.code) in Heq.
    rewrite code_chr_digit in Heq by exact Hmod. lia. }
  destruct (n <? 10); [exact Hacc' |].
  apply IH; [apply Z.div_pos; lia | exact Hacc'].
Qed.

Lemma FormatUint_inj (a b : Z) :
  is_uint64 a -> is_uint64 b -> strconv.FormatUint a = strconv.FormatUint b -> a = b.
Proof.
  intros Ha Hb Heq. pose proof (ParseUint_FormatUint a Ha) as Pa.
  rewrite Heq, (ParseUint_FormatUint b Hb) in Pa. congruence.
Qed.

Lemma FormatInt_inj (a b : Z) :
  is_int64 a -> is_int64 b -> strconv.FormatInt a = strconv.FormatInt b -> a = b.
Proof.
  intros Ha Hb Heq. pose proof (ParseInt_FormatInt a Ha) as Pa.
  rewrite Heq, (ParseInt_FormatInt b Hb) in Pa. congruence.
Qed.

Lemma GenerateMessageToSign_cut (contractId nonce : Z) :
  0 <= contractId ->
  strings.cut ":" (GenerateMessageToSign contractId nonce) =
  Some (strconv.FormatUint contractId, strconv.FormatInt nonce).
Proof.
  intros Hc. unfold GenerateMessageToSign.
  change (":" +:+ strconv.FormatInt nonce) with (String ":" (strconv.FormatInt nonce)).
  apply cut_app. now apply lacks_colon_FormatUint.
Qed.

(** The message that is signed names one contract and one nonce: two
    pairs of a [uint64] id and an [int64] nonce with the same message are
    the same pair. *)
Theorem GenerateMessageToSign_inj (id id' nonce nonce' : Z) :
  is_uint64 id -> is_uint64 id' -> is_int64 nonce -> is_int64 nonce' ->
  GenerateMessageToSign id nonce = GenerateMessageToSign id' nonce' ->
  id = id' /\ nonce = nonce'.
Proof.
  intros Hi Hi' Hn Hn' Heq.
  pose proof (GenerateMessageToSign_cut id nonce (proj1 Hi)) as Hc.
  rewrite Heq, (GenerateMessageToSign_cut id' nonce' (proj1 Hi')) in Hc.
  injection Hc as Hid Hnonce. split.
  - symmetry. now apply FormatUint_inj.
  - symmetry. now apply FormatInt_inj.
Qed.

Lemma uint64_7 : is_uint64 7.
Proof. unfold is_uint64. rewrite maxUint64_eq. lia. Qed.

Lemma uint64_0 : is_uint64 0.
Proof. unfold is_uint64. rewrite maxUint64_eq. lia. Qed.

Lemma int64_small (n : Z) : -1000 <= n <= 2000000000 -> is_int64 n.
Proof. unfold is_int64, minInt64, maxInt64. change (2 ^ 63) with 9223372036854775808. lia. Qed.

Lemma GenerateMessageToSign_inj_witness :
  is_uint64 7 /\ is_int64 5 /\
  GenerateMessageToSign 7 5 = GenerateMessageToSign 7 5 /\ (7 = 7 /\ 5 = 5).
Proof.
  assert (H5 : is_int64 5) by (apply int64_small; lia).
  split; [exact uint64_7 |]. split; [exact H5 |]. split; [reflexivity |].
  exact (GenerateMessageToSign_inj 7 7 5 5 uint64_7 uint64_7 H5 H5 eq_refl).
Defined.

Lemma GenerateArkAuthString_parts (contractId nonce : Z) (signature : list Byte.byte) :
  0 <= contractId ->
  strings.SplitN (GenerateArkAuthString contractId nonce signature) ":" 3 =
  [strconv.FormatUint contractId; strconv.FormatInt nonce; hex.EncodeToString signature].
Proof.
  intros Hc. unfold GenerateArkAuthString, GenerateMessageToSign.
  rewrite app_assoc_string.
  change ((":" +:+ strconv.FormatInt nonce) +:+ ":" +:+ hex.EncodeToString signature)
    with (":" +:+ strconv.FormatInt nonce +:+ ":" +:+ hex.EncodeToString signature).
  apply SplitN_three_parts; [now apply lacks_colon_FormatUint | apply lacks_colon_FormatInt].
Qed.

(** The direct-client parser reads back a string of the shape
    [id:timestamp:hex]: all three fields are restored. *)
Theorem parseContractAuth_roundtrip (id ts : Z) (sig : list Byte.byte) :
  is_uint64 id -> is_int64 ts ->
  parseContractAuth (GenerateArkAuthString id ts sig) =
  Return (ContractAuth.mk id ts sig, None).
Proof.
  intros Hid Hts. unfold parseContractAuth.
  rewrite GenerateArkAuthString_parts by exact (proj1 Hid).
  pose proof (ParseUint_FormatUint _ Hid) as Hp0.
  pose proof (ParseInt_FormatInt _ Hts) as Hp1.
  pose proof (DecodeString_EncodeToString sig) as Hp2.
  remember (strconv.FormatUint id) as a eqn:Ea.
  remember (strconv.FormatInt ts) as b eqn:Eb.
  remember (hex.EncodeToString sig) as c eqn:Ec.
  cbn [len length Z.of_nat Pos.of_succ_nat Pos.succ Z.ltb Z.compare Pos.compare
       Pos.compare_cont index nth_error bind].
  rewrite Hp0. cbn [bind check]. rewrite Hp1. cbn [bind check]. rewrite Hp2. reflexivity.
Qed.

Lemma parseContractAuth_roundtrip_witness :
  is_uint64 7 /\ is_int64 1700000000 /\
  parseContractAuth (GenerateArkAuthString 7 1700000000 [Byte.xde; Byte.xad]) =
  Return (ContractAuth.mk 7 1700000000 [Byte.xde; Byte.xad], None).
Proof.
  assert (Hts : is_int64 1700000000) by (apply int64_small; lia).
  split; [exact uint64_7 |]. split; [exact Hts |].
  exact (parseContractAuth_roundtrip 7 1700000000 [Byte.xde; Byte.xad] uint64_7 Hts).
Defined.

(** [parseContractAuth] panics on exactly the inputs that have no colon
    and are a decimal [uint64]; on every other input it returns. *)
Theorem parseContractAuth_panics_iff (raw : string) :
  (exists msg, parseContractAuth raw = Panic msg) <->
  strings.cut ":" raw = None /\ snd (strconv.ParseUint raw) = None.
Proof.
  split.
  - intros (msg & Hp). revert Hp. unfold parseContractAuth. cbn [strings.SplitN].
    destruct (strings.cut ":" raw) as [[a rest] |].
    + intros Hp. exfalso. revert Hp.
      destruct (strings.cut ":" rest) as [[b c] |];
        cbn [len length Z.of_nat Pos.of_succ_nat Pos.succ Z.ltb Z.compare Pos.compare
             Pos.compare_cont index nth_error bind];
        destruct (strconv.ParseUint a) as [v0 [e0 |]]; cbn [bind returning check];
        try discriminate;
        [destruct (strconv.ParseInt b) as [v1 [e1 |]]
        |destruct (strconv.ParseInt rest) as [v1 [e1 |]]]; cbn [bind returning check];
        try discriminate;
        destruct (hex.DecodeString c) as [v2 [e2 |]]; cbn [bind returning check];
        discriminate.
    + cbn [len length Z.of_nat Pos.of_succ_nat Z.ltb Z.compare index nth_error bind].
      destruct (strconv.ParseUint raw) as [v [e |]]; cbn [bind returning check snd];
        [discriminate | intros _; split; reflexivity].
  - intros [Hcut Hnum]. exists "index out of range".
    now apply parseContractAuth_one_part.
Qed.

(** A delegated-spender proof may stop after the nonce or after the
    contract id: the missing signature is empty and the missing nonce is 0,
    and no error is reported. *)
Theorem parseArkAuth_missing_fields (id nonce : Z) :
  is_uint64 id -> is_int64 nonce ->
  parseArkAuth (GenerateMessageToSign id nonce) = Return (ArkAuth.mk id "" nonce [], None) /\
  parseArkAuth (strconv.FormatUint id) = Return (ArkAuth.mk id "" 0 [], None).
Proof.
  intros Hid Hn.
  pose proof (ParseUint_FormatUint _ Hid) as Hp0.
  pose proof (ParseInt_FormatInt _ Hn) as Hp1.
  split; unfold parseArkAuth; cbn [strings.SplitN].
  - rewrite GenerateMessageToSign_cut by exact (proj1 Hid).
    rewrite (cut_lacks ":" _ (lacks_colon_FormatInt nonce)).
    remember (strconv.FormatUint id) as a eqn:Ea.
    remember (strconv.FormatInt nonce) as b eqn:Eb.
    cbn [len length Z.of_nat Pos.of_succ_nat Pos.succ Z.ltb Z.compare Pos.compare
         Pos.compare_cont index nth_error bind].
    rewrite Hp0. cbn [bind check]. rewrite Hp1. reflexivity.
  - rewrite (cut_lacks ":" _ (lacks_colon_FormatUint id (proj1 Hid))).
    remember (strconv.FormatUint id) as a eqn:Ea.
    cbn [len length Z.of_nat Pos.of_succ_nat Pos.succ Z.ltb Z.compare Pos.compare
         Pos.compare_cont index nth_error bind].
    rewrite Hp0. reflexivity.
Qed.

Lemma parseArkAuth_missing_fields_witness :
  is_uint64 7 /\ is_int64 5 /\
  parseArkAuth "7:5" = Return (ArkAuth.mk 7 "" 5 [], None) /\
  parseArkAuth "7" = Return (ArkAuth.mk 7 "" 0 [], None).
Proof.
  assert (H5 : is_int64 5) by (apply int64_small; lia).
  split; [exact uint64_7 |]. split; [exact H5 |].
  exact (parseArkAuth_missing_fields 7 5 uint64_7 H5).
Defined.

(** Whatever the input, a proof returned by [parseArkAuth] has no spender
    key: the parser never sets it. *)
Theorem parseArkAuth_spender_empty (raw : string) (aa : ArkAuth.t) (err : option error) :
  parseArkAuth raw = Return (aa, err) -> ArkAuth.Spender aa = "".
Proof.
  unfold parseArkAuth.
  destruct (SplitN_3_shape raw) as [(a & ->) | [(a & b & ->) | (a & b & c & ->)]];
    cbn [len length Z.of_nat Pos.of_succ_nat Pos.succ Z.ltb Z.compare Pos.compare
         Pos.compare_cont index nth_error bind];
    destruct (strconv.ParseUint a) as [v0 [e0 |]]; cbn [bind returning check];
    try (intros [= <- <-]; reflexivity);
    destruct (strconv.ParseInt b) as [v1 [e1 |]]; cbn [bind returning check];
    try (intros [= <- <-]; reflexivity);
    destruct (hex.DecodeString c) as [v2 [e2 |]]; cbn [bind returning check];
    intros [= <- <-]; reflexivity.
Qed.

Lemma parseArkAuth_spender_empty_witness :
  parseArkAuth "7:5:dead" = Return (ArkAuth.mk 7 "" 5 [Byte.xde; Byte.xad], None) /\
  ArkAuth.Spender (ArkAuth.mk 7 "" 5 [Byte.xde; Byte.xad]) = "".
Proof.
  split; [reflexivity |].
  exact (parseArkAuth_spender_empty "7:5:dead" (ArkAuth.mk 7 "" 5 [Byte.xde; Byte.xad]) None
           eq_refl).
Defined.

(** The log rendering of a direct-client proof is not its wire format:
    [parseContractAuth] turns every [ContractAuth.String] down with a syntax
    error on the contract id. *)
Theorem parseContractAuth_String_rejected (auth : ContractAuth.t) :
  parseContractAuth (ContractAuth_String auth) =
  Return (ContractAuth.zero, Some (NumError "ParseUint" "Contract Id" ErrSyntax)).
Proof.
  unfold parseContractAuth, ContractAuth_String. cbn [strings.SplitN].
  set (rest := strconv.FormatUint _ +:+ _).
  change ("Contract Id: " +:+ rest) with ("Contract Id" +:+ String ":" (String " " rest)).
  rewrite cut_app by reflexivity.
  destruct (strings.cut ":" (String " " rest)) as [[b c] |];
    cbn [len length Z.of_nat Pos.of_succ_nat Pos.succ Z.ltb Z.compare Pos.compare
         Pos.compare_cont index nth_error bind]; reflexivity.
Qed.

(** * Further properties of the rate limiter registry *)

Lemma limiterKey_cut (contractId : Z) (key : string) :
  0 <= contractId ->
  strings.cut "-" (limiterKey contractId key) = Some (strconv.FormatUint contractId, key).
Proof.
  intros Hc. unfold limiterKey.
  change ("-" +:+ key) with (String "-" key).
  apply cut_app. apply lacks_digits; [left; vm_compute; reflexivity | exact Hc | reflexivity].
Qed.

(** Two registry keys are equal only for the same contract id and the same
    visitor key: limiters are never shared between contracts or between
    visitors. *)
Theorem limiterKey_inj (id id' : Z) (key key' : string) :
  is_uint64 id -> is_uint64 id' ->
  limiterKey id key = limiterKey id' key' -> id = id' /\ key = key'.
Proof.
  intros Hi Hi' Heq.
  pose proof (limiterKey_cut id key (proj1 Hi)) as Hc.
  rewrite Heq, (limiterKey_cut id' key' (proj1 Hi')) in Hc.
  injection Hc as Hid Hkey. split; [symmetry; now apply FormatUint_inj | now symmetry].
Qed.

Lemma limiterKey_inj_witness :
  is_uint64 7 /\ limiterKey 7 "10.0.0.2" = "7-10.0.0.2" /\
  (7 = 7 /\ "10.0.0.2" = "10.0.0.2").
Proof.
  split; [exact uint64_7 |]. split; [reflexivity |].
  exact (limiterKey_inj 7 7 "10.0.0.2" "10.0.0.2" uint64_7 uint64_7 eq_refl).
Defined.

Lemma level_nonneg (lim : rate.Limiter) (t : Z) : sound lim -> 0 <= level lim t.
Proof.
  intros (_ & Htok & Hb). unfold level, rate.advance, rate.Sub, rate.minDuration,
    rate.maxDuration, rate.Minute.
  change (2 ^ 63) with 9223372036854775808.
  destruct (t <? rate.last lim) eqn:E; [| apply Z.ltb_ge in E]; lia.
Qed.

Lemma level_cap (lim : rate.Limiter) (t : Z) : level lim t <= rate.burst lim * rate.Minute.
Proof. unfold level, rate.advance. lia. Qed.

(** Between two instants the level rises by at most the time passed. *)
Lemma level_rise (lim : rate.Limiter) (t t' : Z) :
  t <= t' -> level lim t' <= level lim t + (t' - t).
Proof.
  intros Ht. unfold level, rate.advance, rate.Sub, rate.minDuration, rate.maxDuration.
  change (2 ^ 63) with 9223372036854775808.
  destruct (t <? rate.last lim) eqn:E; [apply Z.ltb_lt in E | apply Z.ltb_ge in E];
    (destruct (t' <? rate.last lim) eqn:E'; [apply Z.ltb_lt in E' | apply Z.ltb_ge in E']); lia.
Qed.

(** One call on a sound bucket: a grant takes exactly one token and stamps
    the bucket; a refusal leaves it as it was. *)
Lemma Allow_sound (lim : rate.Limiter) (now : Z) :
  sound lim ->
  let lim' := snd (rate.Allow lim now) in
  sound lim' /\ rate.burst lim' = rate.burst lim /\
  (if fst (rate.Allow lim now)
   then level lim' now = level lim now - rate.Minute /\ rate.last lim' = now
   else lim' = lim).
Proof.
  intros (Hl & Htok & Hb). cbv zeta. unfold rate.Allow. rewrite Hl.
  fold (level lim now).
  pose proof (level_cap lim now) as Hcap.
  destruct ((1 <=? rate.burst lim) && (0 <=? level lim now - rate.Minute)) eqn:E;
    cbn [fst snd]; [| repeat split; auto].
  apply andb_true_iff in E as [_ E]. apply Z.leb_le in E.
  unfold sound. cbn [rate.limit rate.tokens rate.burst rate.last].
  repeat split; auto.
  unfold level at 1, rate.advance, rate.Sub, rate.minDuration, rate.maxDuration.
  cbn [rate.tokens rate.last rate.burst].
  change (2 ^ 63) with 9223372036854775808.
  rewrite Z.ltb_irrefl. replace (now - now) with 0 by lia. unfold rate.Minute in *. lia.
Qed.

(** Over a run of calls at instants that do not go back, the tokens
    granted and the level left are covered by the level at the start and the
    time passed. *)
Lemma isRateLimited_seq_budget (cid : Z) (key : string) (calls : list (Z * Z)) :
  forall (vs : gmap string rate.Limiter) (lim : rate.Limiter) (t : Z),
    vs !! limiterKey cid key = Some lim -> sound lim ->
    ascending t (map fst calls) ->
    exists lim',
      snd (isRateLimited_seq vs cid key calls) !! limiterKey cid key = Some lim' /\
      sound lim' /\ rate.burst lim' = rate.burst lim /\
      (rate.last lim <= t -> rate.last lim' <= final t (map fst calls)) /\
      grants (fst (isRateLimited_seq vs cid key calls)) * rate.Minute +
      level lim' (final t (map fst calls)) <=
      level lim t + (final t (map fst calls) - t).
Proof.
  induction calls as [| [now q] calls IH]; intros vs lim t E Hs Hasc.
  - exists lim. cbn [isRateLimited_seq fst snd map final grants].
    split; [exact E |]. split; [exact Hs |]. split; [reflexivity |].
    split; [intros Hle; exact Hle | lia].
  - cbn [map fst ascending final] in *. destruct Hasc as [Ht Hasc].
    cbn [isRateLimited_seq].
    rewrite (isRateLimited_existing vs now cid key q lim E).
    set (vs1 := <[limiterKey cid key := snd (rate.Allow lim now)]> vs).
    assert (E1 : vs1 !! limiterKey cid key = Some (snd (rate.Allow lim now)))
      by apply lookup_insert_eq.
    destruct (Allow_sound lim now Hs) as (Hs1 & Hb1 & Hstep). cbv zeta in Hs1, Hb1, Hstep.
    destruct (IH vs1 _ now E1 Hs1 Hasc) as (lim' & Hl & Hs' & Hb' & Hlast & Hbudget).
    exists lim'. destruct (isRateLimited_seq vs1 cid key calls) as [bs vs2].
    cbn [fst snd] in *. pose proof (level_rise lim t now Ht) as Hrise.
    split; [exact Hl |]. split; [exact Hs' |]. split; [congruence |].
    destruct (fst (rate.Allow lim now)); cbn [negb grants].
    + destruct Hstep as [Hlev Hstamp]. split; [intros _; apply Hlast; lia | lia].
    + rewrite Hstep in *. split; [intros Hle; apply Hlast; lia | lia].
Qed.

Lemma NewLimiter_sound (q : Z) : 0 <= q -> sound (rate.NewLimiter (rate.Every rate.Minute) q).
Proof. intros Hq. unfold sound. cbn. repeat split; auto; lia. Qed.

(** The rate limit.  From the call that creates a key's limiter with quota
    [q >= 0], over any later calls at instants that do not go back, whatever
    quotas they pass, the calls let through number at most [q + 1] plus one
    per minute passed since the first call.  (Counting exactly the bound is
    [q] plus one per minute; the one call more covers a grant the library's
    rounding may give within a nanosecond of a full token.) *)
Theorem isRateLimited_rate_bound (vs : gmap string rate.Limiter) (cid : Z) (key : string)
    (t1 q : Z) (calls : list (Z * Z)) :
  vs !! limiterKey cid key = None -> 0 <= q -> ascending t1 (map fst calls) ->
  grants (fst (isRateLimited_seq vs cid key ((t1, q) :: calls))) * rate.Minute <=
  (q + 1) * rate.Minute + (final t1 (map fst calls) - t1).
Proof.
  intros E Hq Hasc. cbn [isRateLimited_seq].
  pose proof (isRateLimited_unfold vs t1 cid key q) as Hfirst. cbv zeta in Hfirst.
  rewrite E in Hfirst. rewrite Hfirst.
  set (lim0 := rate.NewLimiter (rate.Every rate.Minute) q) in *.
  set (vs1 := <[limiterKey cid key := snd (rate.Allow lim0 t1)]> vs).
  assert (E1 : vs1 !! limiterKey cid key = Some (snd (rate.Allow lim0 t1)))
    by apply lookup_insert_eq.
  destruct (Allow_sound lim0 t1 (NewLimiter_sound q Hq)) as (Hs1 & Hb1 & Hstep).
  cbv zeta in Hs1, Hb1, Hstep.
  destruct (isRateLimited_seq_budget cid key calls vs1 _ t1 E1 Hs1 Hasc)
    as (lim' & Hl & Hs' & Hb' & _ & Hbudget).
  destruct (isRateLimited_seq vs1 cid key calls) as [bs vs2]. cbn [fst snd] in *.
  pose proof (level_nonneg lim' (final t1 (map fst calls)) Hs') as Hnn.
  pose proof (level_cap lim0 t1) as Hcap. change (rate.burst lim0) with q in Hcap.
  assert (Hmin : 0 < rate.Minute) by reflexivity.
  destruct (fst (rate.Allow lim0 t1)); cbn [negb grants].
  - destruct Hstep as [Hlev _]. lia.
  - rewrite Hstep in *. pose proof (level_nonneg lim0 t1 (NewLimiter_sound q Hq)). lia.
Qed.

Lemma isRateLimited_rate_bound_witness :
  let calls := [(t0, 2); (t0 + 30 * 1000000000, 2); (t0 + 61 * 1000000000, 2)] in
  (∅ : gmap string rate.Limiter) !! limiterKey 7 "7" = None /\ 0 <= 2 /\
  ascending t0 (map fst calls) /\
  fst (isRateLimited_seq ∅ 7 "7" ((t0, 2) :: calls)) = [false; false; true; false] /\
  grants (fst (isRateLimited_seq ∅ 7 "7" ((t0, 2) :: calls))) * rate.Minute <=
  (2 + 1) * rate.Minute + (final t0 (map fst calls) - t0).
Proof.
  cbv zeta.
  assert (Hasc : ascending t0 (map fst [(t0, 2); (t0 + 30 * 1000000000, 2);
                                        (t0 + 61 * 1000000000, 2)]))
    by (cbn; unfold t0; lia).
  split; [apply lookup_empty |]. split; [lia |]. split; [exact Hasc |].
  split; [vm_compute; reflexivity |].
  exact (isRateLimited_rate_bound ∅ 7 "7" t0 2 _ (lookup_empty _) ltac:(lia) Hasc).
Defined.

(** No starvation.  Once a key's limiter exists with quota [q >= 1], a call
    made a full minute or more after the latest call for the key is let
    through, whatever happened before. *)
Theorem isRateLimited_grants_after_a_minute (vs : gmap string rate.Limiter) (cid : Z)
    (key : string) (t1 q : Z) (calls : list (Z * Z)) (now q' : Z) :
  vs !! limiterKey cid key = None -> 1 <= q -> 0 <= t1 ->
  ascending t1 (map fst calls) ->
  final t1 (map fst calls) + rate.Minute <= now ->
  fst (isRateLimited (snd (isRateLimited_seq vs cid key ((t1, q) :: calls))) now cid key q') =
  false.
Proof.
  intros E Hq Ht1 Hasc Hnow. cbn [isRateLimited_seq].
  pose proof (isRateLimited_unfold vs t1 cid key q) as Hfirst. cbv zeta in Hfirst.
  rewrite E in Hfirst. rewrite Hfirst.
  set (lim0 := rate.NewLimiter (rate.Every rate.Minute) q) in *.
  set (vs1 := <[limiterKey cid key := snd (rate.Allow lim0 t1)]> vs).
  assert (E1 : vs1 !! limiterKey cid key = Some (snd (rate.Allow lim0 t1)))
    by apply lookup_insert_eq.
  assert (Hs0 : sound lim0) by (apply NewLimiter_sound; lia).
  destruct (Allow_sound lim0 t1 Hs0) as (Hs1 & Hb1 & Hstep).
  cbv zeta in Hs1, Hb1, Hstep.
  assert (Hlast1 : rate.last (snd (rate.Allow lim0 t1)) <= t1).
  { destruct (fst (rate.Allow lim0 t1)); [lia | rewrite Hstep; exact Ht1]. }
  destruct (isRateLimited_seq_budget cid key calls vs1 _ t1 E1 Hs1 Hasc)
    as (lim' & Hl & Hs' & Hb' & Hlast & _).
  destruct (isRateLimited_seq vs1 cid key calls) as [bs vs2]. cbn [fst snd] in *.
  rewrite (isRateLimited_existing vs2 now cid key q' lim' Hl). cbn [fst].
  apply negb_false_iff.
  destruct Hs' as (Hlim & Htok & Hb).
  apply (Allow_iff_token lim' rate.Minute now Hlim eq_refl).
  specialize (Hlast Hlast1).
  assert (Hburst : 1 <= rate.burst lim') by (rewrite Hb', Hb1; exact Hq).
  unfold rate.advance, rate.Sub, rate.minDuration, rate.maxDuration, rate.Minute in *.
  change (2 ^ 63) with 9223372036854775808.
  replace (now <? rate.last lim') with false by (symmetry; apply Z.ltb_ge; lia).
  lia.
Qed.

Lemma isRateLimited_grants_after_a_minute_witness :
  (∅ : gmap string rate.Limiter) !! limiterKey 7 "7" = None /\ 1 <= 1 /\ 0 <= t0 /\
  ascending t0 (map fst [(t0, 1); (t0 + 1, 1)]) /\
  final t0 (map fst [(t0, 1); (t0 + 1, 1)]) + rate.Minute <= t0 + 1 + rate.Minute /\
  fst (isRateLimited_seq ∅ 7 "7" [(t0, 1); (t0, 1); (t0 + 1, 1)]) = [false; true; true] /\
  fst (isRateLimited (snd (isRateLimited_seq ∅ 7 "7" [(t0, 1); (t0, 1); (t0 + 1, 1)]))
         (t0 + 1 + rate.Minute) 7 "7" 1) = false.
Proof.
  assert (Hasc : ascending t0 (map fst [(t0, 1); (t0 + 1, 1)])) by (cbn; lia).
  assert (Ht0 : 0 <= t0) by (unfold t0; lia).
  assert (Hfin : final t0 (map fst [(t0, 1); (t0 + 1, 1)]) + rate.Minute <=
                 t0 + 1 + rate.Minute) by (cbn; lia).
  split; [apply lookup_empty |]. split; [lia |]. split; [exact Ht0 |].
  split; [exact Hasc |]. split; [exact Hfin |]. split; [vm_compute; reflexivity |].
  exact (isRateLimited_grants_after_a_minute ∅ 7 "7" t0 1 _ _ 1 (lookup_empty _)
           ltac:(lia) Ht0 Hasc Hfin).
Defined.

(** A quota of zero or less shuts the key: the limiter created with it
    refuses the creating call and every later one, whatever quota those
    pass. *)
Theorem isRateLimited_nonpositive_quota (vs : gmap string rate.Limiter) (cid : Z)
    (key : string) (t1 q : Z) (calls : list (Z * Z)) :
  vs !! limiterKey cid key = None -> q <= 0 ->
  Forall (fun limited => limited = true)
    (fst (isRateLimited_seq vs cid key ((t1, q) :: calls))).
Proof.
  intros E Hq.
  assert (Hclosed : forall calls vs lim,
             vs !! limiterKey cid key = Some lim ->
             rate.limit lim = rate.Per rate.Minute -> rate.burst lim <= 0 ->
             Forall (fun limited => limited = true)
               (fst (isRateLimited_seq vs cid key calls))).
  { clear. induction calls as [| [now q] calls IH]; intros vs lim E Hl Hb;
      [constructor |].
    cbn [isRateLimited_seq]. rewrite (isRateLimited_existing vs now cid key q lim E).
    assert (HA : rate.Allow lim now = (false, lim)).
    { unfold rate.Allow. rewrite Hl.
      replace (1 <=? rate.burst lim) with false by (symmetry; apply Z.leb_gt; lia).
      reflexivity. }
    rewrite HA. cbn [fst snd negb].
    specialize (IH (<[limiterKey cid key := lim]> vs) lim (lookup_insert_eq _ _ _) Hl Hb).
    destruct (isRateLimited_seq _ cid key calls) as [bs vs2]. cbn [fst] in *.
    constructor; [reflexivity | exact IH]. }
  set (lim0 := rate.NewLimiter (rate.Every rate.Minute) q).
  assert (Hsame : isRateLimited_seq vs cid key ((t1, q) :: calls) =
                  isRateLimited_seq (<[limiterKey cid key := lim0]> vs)
                    cid key ((t1, q) :: calls)).
  { cbn [isRateLimited_seq]. rewrite !isRateLimited_unfold. cbv zeta.
    rewrite E, lookup_insert_eq, insert_insert_eq. reflexivity. }
  rewrite Hsame.
  apply (Hclosed _ _ lim0); [apply lookup_insert_eq | reflexivity | exact Hq].
Qed.

Lemma isRateLimited_nonpositive_quota_witness :
  (∅ : gmap string rate.Limiter) !! limiterKey 0 "10.0.0.2" = None /\ 0 <= 0 /\
  Forall (fun limited => limited = true)
    (fst (isRateLimited_seq ∅ 0 "10.0.0.2" [(t0, 0); (t0 + rate.Minute, 5)])).
Proof.
  split; [apply lookup_empty |]. split; [lia |].
  exact (isRateLimited_nonpositive_quota ∅ 0 "10.0.0.2" t0 0 [(t0 + rate.Minute, 5)]
           (lookup_empty _) ltac:(lia)).
Defined.

(** * Further properties of the pipeline *)

Lemma EqualFold_refl (s : string) : strings.EqualFold s s = true.
Proof.
  induction s as [| c s IH]; [reflexivity |].
  cbn [strings.EqualFold]. now rewrite Ascii.eqb_refl, IH.
Qed.

Lemma whitelisted_In (ip : string) (ips : list string) :
  In ip ips -> whitelisted ip ips = true.
Proof.
  intros Hin. unfold whitelisted. apply existsb_exists. exists ip.
  split; [exact Hin | apply EqualFold_refl].
Qed.

Lemma getRemoteAddr_real_ip (r : Request) :
  Header_XRealIp r <> "" -> getRemoteAddr r = Header_XRealIp r.
Proof.
  intros Hne. unfold getRemoteAddr.
  destruct (String.eqb (Header_XRealIp r) "") eqn:E; [| reflexivity].
  apply String.eqb_eq in E. contradiction.
Qed.

Section MorePipelineProperties.

Context {M C Addr PK : Type}.
Context `{!ContractCache M} `{!ClaimCache C} `{!Ledger Addr PK}.

(** Every return of [paidTier] with an error leaves the stores and the
    configuration as they were. *)
Lemma paidTier_error_keeps_stores (p : State M C) (now : Z) (aa : ArkAuth.t)
    (remoteAddr : string) (code : Z) (e : error) (p' : State M C) :
  paidTier p now aa remoteAddr = Return (code, Some e, p') ->
  MemStore p' = MemStore p /\ ClaimStore p' = ClaimStore p /\
  Config p' = Config p /\ ContractConfigStore p' = ContractConfigStore p.
Proof.
  unfold paidTier, Int_Int64. paid_cases;
    first [discriminate | intros [= <- <- <-]]; repeat split.
Qed.

Lemma paidTier_keeps_config (p : State M C) (now : Z) (aa : ArkAuth.t)
    (remoteAddr : string) (code : Z) (err : option error) (p' : State M C) :
  paidTier p now aa remoteAddr = Return (code, err, p') ->
  Config p' = Config p /\ ContractConfigStore p' = ContractConfigStore p.
Proof.
  unfold paidTier, Int_Int64. paid_cases;
    first [discriminate | intros [= <- <- <-]]; repeat split.
Qed.

(** The codes of [paidTier] are 200, 400, 402, 429 and 500; when it
    answers 400 (replay) or 402 (expired or spent) nothing at all has changed:
    such a request costs the contract no rate-limit token. *)
Theorem paidTier_codes (p : State M C) (now : Z) (aa : ArkAuth.t)
    (remoteAddr : string) (code : Z) (err : option error) (p' : State M C) :
  paidTier p now aa remoteAddr = Return (code, err, p') ->
  In code [StatusOK; StatusBadRequest; StatusPaymentRequired; StatusTooManyRequests;
           StatusInternalServerError] /\
  (code = StatusBadRequest \/ code = StatusPaymentRequired -> p' = p).
Proof.
  unfold paidTier, Int_Int64. paid_cases;
    first [discriminate | intros [= <- <- <-]];
    (split; [cbn; tauto |]);
    unfold StatusOK, StatusBadRequest, StatusPaymentRequired, StatusTooManyRequests,
      StatusInternalServerError;
    first [reflexivity | intros [Hc | Hc]; discriminate Hc].
Qed.

(** [paidTier] returns, without a panic, whenever the rate of the cached
    contract fits in [int64]. *)
Theorem paidTier_returns (p : State M C) (now : Z) (aa : ArkAuth.t) (remoteAddr : string) :
  is_int64 (Contract.Rate
              (fst (MemStore_Get (MemStore p) (strconv.FormatUint (ArkAuth.ContractId aa))))) ->
  exists res, paidTier p now aa remoteAddr = Return res.
Proof.
  intros [Hlo Hhi]. apply Z.leb_le in Hlo, Hhi. revert Hlo Hhi.
  unfold paidTier, Int_Int64.
  destruct (MemStore_Get (MemStore p) _) as [contract [e |]]; cbn [fst bind returning];
    intros Hlo Hhi; [eauto |].
  rewrite Hlo, Hhi. cbn [andb]. paid_cases; eauto.
Qed.

(** [freeTier] works on the one limiter of contract id 0 and the caller's
    address: it answers 200 or 429, and leaves the stores, the configuration
    and every other limiter as they were. *)
Theorem freeTier_frame (p : State M C) (now : Z) (remoteAddr : string) :
  let '(code, err, p') := freeTier p now remoteAddr in
  ((code = StatusOK /\ err = None) \/
   (code = StatusTooManyRequests /\ err = Some (Errorf StatusText429))) /\
  MemStore p' = MemStore p /\ ClaimStore p' = ClaimStore p /\ Config p' = Config p /\
  ContractConfigStore p' = ContractConfigStore p /\
  forall k, k <> limiterKey 0 remoteAddr -> visitors p' !! k = visitors p !! k.
Proof.
  unfold freeTier. rewrite isRateLimited_unfold.
  destruct (negb _); cbn [with_visitors MemStore ClaimStore Config ContractConfigStore visitors];
    (split; [auto |]); repeat split; intros k Hk; now rewrite lookup_insert_ne.
Qed.

(** ** The handler, path by path *)

(** The start of [auth]: with a proof resolved, the handler goes on with
    it. *)
Lemma auth_resolve (r : Request) (aa : ArkAuth.t) (p : State M C)
    (k : ArkAuth.t -> step (ResponseWriter * State M C) (ResponseWriter * State M C)) :
  carries r aa ->
  bind (match Query_arkauth r with
        | Some raw =>
            let* res := call (parseArkAuth raw) in
            match snd res with
            | Some err => Finish (http_Error newResponseWriter err StatusBadRequest, p)
            | None => Continue (fst res)
            end
        | None => Continue ArkAuth.zero
        end) k = k aa.
Proof.
  unfold carries. destruct (Query_arkauth r) as [raw |].
  - intros ->. reflexivity.
  - intros ->. reflexivity.
Qed.

(** A proof that is present but does not parse ends the request with 400:
    nothing is looked up, no limiter is drawn on, and there is no fall-back
    to the free tier. *)
Theorem auth_malformed_proof (p : State M C) (now : Z) (r : Request) (raw : string)
    (aa : ArkAuth.t) (e : error) :
  Query_arkauth r = Some raw ->
  parseArkAuth raw = Return (aa, Some e) ->
  auth p now r = Return (http_Error newResponseWriter e StatusBadRequest, p).
Proof.
  intros Hq Hparse. unfold auth. rewrite Hq, Hparse. reflexivity.
Qed.

(** A request for which the policy block passes and the eligibility test
    fails (the contract could not be loaded, or it is restricted and the
    proof does not validate) is handled by the free path alone. *)
Theorem auth_ineligible (p : State M C) (now : Z) (r : Request) (aa : ArkAuth.t)
    (contract : Contract.t) (err : option error) (w1 : ResponseWriter) (p1 : State M C) :
  carries r aa ->
  MemStore_Get (MemStore p) (strconv.FormatUint (ArkAuth.ContractId aa)) = (contract, err) ->
  contractPolicy p now newResponseWriter contract (getRemoteAddr r) = Continue (w1, p1) ->
  eligible p1 aa contract err = false ->
  auth p now r = Return (freePath w1 p1 now (getRemoteAddr r)).
Proof.
  intros Hc Hget Hpol Hel. unfold auth. rewrite (auth_resolve r aa p _ Hc).
  rewrite Hget, Hpol. cbn [bind]. rewrite Hel. cbn [bind].
  unfold freePath. destruct (freeTier p1 now (getRemoteAddr r)) as [[code [e |]] p2];
    reflexivity.
Qed.

(** The paid path.  For an eligible request whose first path segment names
    the contract's service, [auth] forwards the request with [tier: paid] in
    the state [paidTier] left when [paidTier] accepts; when [paidTier]
    refuses, whatever its code, the request goes to the free path, in the
    state [paidTier] left, and the [tier] header is overwritten. *)
Theorem auth_paid_path (p : State M C) (now : Z) (r : Request) (aa : ArkAuth.t)
    (contract : Contract.t) (w1 : ResponseWriter) (p1 p2 : State M C)
    (serviceName : string) (code : Z) (err : option error) :
  carries r aa ->
  MemStore_Get (MemStore p) (strconv.FormatUint (ArkAuth.ContractId aa)) = (contract, None) ->
  contractPolicy p now newResponseWriter contract (getRemoteAddr r) = Continue (w1, p1) ->
  eligible p1 aa contract None = true ->
  nth_error (strings.Split (URL_Path r) "/") 1 = Some serviceName ->
  NewService serviceName = (Contract.Service contract, None) ->
  paidTier p1 now aa (getRemoteAddr r) = Return (code, err, p2) ->
  auth p now r =
  Return (match err with
          | None => (ServeHTTP (Header_Set w1 "tier" "paid"), p2)
          | Some _ => freePath (Header_Set w1 "tier" "paid") p2 now (getRemoteAddr r)
          end).
Proof.
  intros Hc Hget Hpol Hel Hpath Hser Hpaid. unfold auth.
  rewrite (auth_resolve r aa p _ Hc). rewrite Hget, Hpol. cbn [bind]. rewrite Hel.
  unfold index. rewrite Hpath. cbn [bind]. rewrite Hser. rewrite Z.eqb_refl.
  cbn [negb bind]. rewrite Hpaid. cbn [call bind].
  destruct err as [e |]; [| reflexivity].
  cbn [bind]. unfold freePath.
  destruct (freeTier p2 now (getRemoteAddr r)) as [[code' [e' |]] p3]; reflexivity.
Qed.

(** On the paid path, a first path segment that parses as a service other
    than the contract's makes [auth] format the nil error of [NewService]:
    the handler panics where a 401 was meant. *)
Theorem auth_service_mismatch (p : State M C) (now : Z) (r : Request) (aa : ArkAuth.t)
    (contract : Contract.t) (w1 : ResponseWriter) (p1 : State M C)
    (serviceName : string) (ser : Z) :
  carries r aa ->
  MemStore_Get (MemStore p) (strconv.FormatUint (ArkAuth.ContractId aa)) = (contract, None) ->
  contractPolicy p now newResponseWriter contract (getRemoteAddr r) = Continue (w1, p1) ->
  eligible p1 aa contract None = true ->
  nth_error (strings.Split (URL_Path r) "/") 1 = Some serviceName ->
  NewService serviceName = (ser, None) ->
  ser <> Contract.Service contract ->
  auth p now r = Panic "nil pointer dereference".
Proof.
  intros Hc Hget Hpol Hel Hpath Hser Hne. unfold auth.
  rewrite (auth_resolve r aa p _ Hc). rewrite Hget, Hpol. cbn [bind]. rewrite Hel.
  unfold index. rewrite Hpath. cbn [bind]. rewrite Hser.
  apply Z.eqb_neq in Hne. rewrite Hne. reflexivity.
Qed.

(** The IP allowlist is checked against the address [getRemoteAddr]
    resolves, and the [X-Real-Ip] header comes first there: a request whose
    header names an allowlisted address passes the allowlist whatever its
    peer address is.  The policy block then never answers 403; what is left
    of it is the per-user limit, metered under the header's address too. *)
Theorem contractPolicy_trusts_real_ip (p : State M C) (now : Z) (w : ResponseWriter)
    (contract : Contract.t) (conf : ContractConfiguration) (r : Request) :
  0 < Contract.Id contract ->
  ContractConfigStore p !! Contract.Id contract = Some conf ->
  Header_XRealIp r <> "" ->
  In (Header_XRealIp r) (WhitelistIPAddresses conf) ->
  getRemoteAddr r = Header_XRealIp r /\
  whitelisted (getRemoteAddr r) (WhitelistIPAddresses conf) = true /\
  contractPolicy p now w contract (getRemoteAddr r) =
  (let w1 := enableCORS w (CORs_ conf) in
   if 0 <? PerUserRateLimit conf then
     let '(ok, v) := isRateLimited (visitors p) now (Contract.Id contract)
                       (Header_XRealIp r) (PerUserRateLimit conf) in
     if ok then
       Finish (http_Error w1 (Errorf StatusText429) StatusTooManyRequests, with_visitors p v)
     else Continue (w1, with_visitors p v)
   else Continue (w1, p)) /\
  forall w' p',
    contractPolicy p now w contract (getRemoteAddr r) = Finish (w', p') ->
    Status w' <> Some StatusForbidden.
Proof.
  intros Hid Hconf Hne Hin.
  pose proof (getRemoteAddr_real_ip r Hne) as Haddr.
  assert (Hwl : whitelisted (getRemoteAddr r) (WhitelistIPAddresses conf) = true)
    by (rewrite Haddr; now apply whitelisted_In).
  assert (Hrun : contractPolicy p now w contract (getRemoteAddr r) =
                 (let w1 := enableCORS w (CORs_ conf) in
                  if 0 <? PerUserRateLimit conf then
                    let '(ok, v) := isRateLimited (visitors p) now (Contract.Id contract)
                                      (Header_XRealIp r) (PerUserRateLimit conf) in
                    if ok then
                      Finish (http_Error w1 (Errorf StatusText429) StatusTooManyRequests,
                              with_visitors p v)
                    else Continue (w1, with_visitors p v)
                  else Continue (w1, p))).
  { unfold contractPolicy, ContractConfigStore_Get.
    apply Z.ltb_lt in Hid. rewrite Hid, Hconf, Hwl, Haddr.
    destruct (0 <? len (WhitelistIPAddresses conf)); reflexivity. }
  split; [exact Haddr |]. split; [exact Hwl |]. split; [exact Hrun |].
  intros w' p'. rewrite Hrun. cbv zeta.
  destruct (0 <? PerUserRateLimit conf); [| discriminate].
  destruct (isRateLimited _ _ _ _ _) as [[|] v]; [| discriminate].
  intros [= <- _]. cbn [http_Error Status]. discriminate.
Qed.

(** What a client can get from [auth].  Whenever the handler returns, the
    request was either forwarded, with no status written and the [tier]
    header set to [paid] or [free], or refused with 400, 401, 403 or 429 and
    not forwarded; the 402 and 500 of [paidTier] never reach the client.
    The claim store and the contract cache are as before unless the request
    was forwarded at paid tier, and the configuration never changes. *)
Theorem auth_outcomes (p : State M C) (now : Z) (r : Request) (w' : ResponseWriter)
    (p' : State M C) :
  auth p now r = Return (w', p') ->
  Config p' = Config p /\ ContractConfigStore p' = ContractConfigStore p /\
  ((served w' = true /\ Status w' = None /\ Header w' !! "tier" = Some "paid") \/
   (served w' = true /\ Status w' = None /\ Header w' !! "tier" = Some "free" /\
    MemStore p' = MemStore p /\ ClaimStore p' = ClaimStore p) \/
   (served w' = false /\
    (exists code, Status w' = Some code /\
                  In code [StatusBadRequest; StatusUnauthorized; StatusForbidden;
                           StatusTooManyRequests]) /\
    MemStore p' = MemStore p /\ ClaimStore p' = ClaimStore p)).
Proof.
  unfold auth.
  match goal with
  | |- returning (bind ?X ?K) = _ -> _ => set (k := K)
  end.
  assert (Hfree : forall w1 p1,
             served w1 = false -> Status w1 = None ->
             Config p1 = Config p -> ContractConfigStore p1 = ContractConfigStore p ->
             MemStore p1 = MemStore p -> ClaimStore p1 = ClaimStore p ->
             freePath w1 p1 now (getRemoteAddr r) = (w', p') ->
             Config p' = Config p /\ ContractConfigStore p' = ContractConfigStore p /\
             ((served w' = true /\ Status w' = None /\ Header w' !! "tier" = Some "paid") \/
              (served w' = true /\ Status w' = None /\ Header w' !! "tier" = Some "free" /\
               MemStore p' = MemStore p /\ ClaimStore p' = ClaimStore p) \/
              (served w' = false /\
               (exists code, Status w' = Some code /\
                             In code [StatusBadRequest; StatusUnauthorized; StatusForbidden;
                                      StatusTooManyRequests]) /\
               MemStore p' = MemStore p /\ ClaimStore p' = ClaimStore p))).
  { intros w1 p1 Hv Hs Hc Hcc Hm Hcl. unfold freePath, freeTier.
    destruct (isRateLimited _ _ _ _ _) as [[|] v]; intros [= <- <-];
      cbn [http_Error ServeHTTP Header_Set served Status Header with_visitors Config
           ContractConfigStore MemStore ClaimStore];
      (split; [exact Hc |]); (split; [exact Hcc |]); right.
    - right. split; [exact Hv |]. split; [| split; assumption].
      exists StatusTooManyRequests. split; [reflexivity | cbn; tauto].
    - left. rewrite lookup_insert_eq. repeat split; assumption. }
  assert (Htail : forall aa,
             returning (k aa) = Return (w', p') ->
             Config p' = Config p /\ ContractConfigStore p' = ContractConfigStore p /\
             ((served w' = true /\ Status w' = None /\ Header w' !! "tier" = Some "paid") \/
              (served w' = true /\ Status w' = None /\ Header w' !! "tier" = Some "free" /\
               MemStore p' = MemStore p /\ ClaimStore p' = ClaimStore p) \/
              (served w' = false /\
               (exists code, Status w' = Some code /\
                             In code [StatusBadRequest; StatusUnauthorized; StatusForbidden;
                                      StatusTooManyRequests]) /\
               MemStore p' = MemStore p /\ ClaimStore p' = ClaimStore p))).
  { intros aa. subst k. cbv beta.
    destruct (MemStore_Get (MemStore p) _) as [contract err].
    pose proof (contractPolicy_spec p now newResponseWriter contract (getRemoteAddr r)) as Hpol.
    assert (Hconf : match contractPolicy p now newResponseWriter contract (getRemoteAddr r) with
                    | Continue (w1, p1) | Finish (w1, p1) =>
                        Config p1 = Config p /\ ContractConfigStore p1 = ContractConfigStore p
                    | Abort _ => True
                    end).
    { unfold contractPolicy. destruct (0 <? Contract.Id contract); [| split; reflexivity].
      destruct (ContractConfigStore_Get p (Contract.Id contract)) as [conf cerr].
      destruct (0 <? len (WhitelistIPAddresses conf));
        [destruct (negb (whitelisted (getRemoteAddr r) (WhitelistIPAddresses conf))) |];
        cbn [bind]; try (split; reflexivity);
        (destruct (0 <? PerUserRateLimit conf); [| split; reflexivity]);
        destruct (isRateLimited _ _ _ _ _) as [[|] v]; split; reflexivity. }
    destruct (contractPolicy p now newResponseWriter contract (getRemoteAddr r))
      as [[w1 p1] | [w1 p1] |]; cbn [bind returning]; [| | contradiction].
    2:{ destruct Hpol as (Hst & Hv & Ht & Hm & Hcl). destruct Hconf as [Hc Hcc].
        intros [= <- <-]. split; [exact Hc |]. split; [exact Hcc |]. right. right.
        split; [exact Hv |]. split; [| split; assumption].
        destruct Hst as [Hst | Hst]; eexists; (split; [exact Hst | cbn; tauto]). }
    destruct Hpol as (Hs & Hv & Ht & Hc & Hm & Hcl). destruct Hconf as [_ Hcc].
    cbn [newResponseWriter Status served] in Hs, Hv.
    destruct (eligible p1 aa contract err); cbn [bind returning].
    2:{ intros Hres. apply (Hfree w1 p1); try assumption.
        unfold freePath. destruct (freeTier p1 now (getRemoteAddr r)) as [[c0 [e0 |]] p3];
          cbn [returning] in Hres; congruence. }
    unfold index. destruct (nth_error _ 1) as [serviceName |]; cbn [bind returning];
      [| discriminate].
    destruct (NewService serviceName) as [ser [e |]]; cbn [bind returning].
    { intros [= <- <-]. split; [exact Hc |]. split; [exact Hcc |]. right. right.
      cbn [http_Error Header_Set served Status]. split; [exact Hv |].
      split; [| split; assumption]. exists StatusUnauthorized. split; [reflexivity | cbn; tauto]. }
    destruct (negb (ser =? Contract.Service contract)); cbn [bind returning]; [discriminate |].
    destruct (paidTier p1 now aa (getRemoteAddr r)) as [[[code [e |]] p2] | msg] eqn:Hpaid;
      cbn [call bind returning]; [| | discriminate].
    - destruct (paidTier_error_keeps_stores _ _ _ _ _ _ _ Hpaid) as (Hm2 & Hcl2 & Hc2 & Hcc2).
      intros Hres.
      apply (Hfree (Header_Set w1 "tier" "paid") p2); cbn [Header_Set served Status];
        try congruence.
      unfold freePath. destruct (freeTier p2 now (getRemoteAddr r)) as [[c0 [e0 |]] p3];
        cbn [returning] in Hres; congruence.
    - destruct (paidTier_keeps_config _ _ _ _ _ _ _ Hpaid) as (Hc2 & Hcc2).
      intros [= <- <-]. split; [congruence |]. split; [congruence |]. left.
      cbn [ServeHTTP Header_Set served Status Header]. rewrite lookup_insert_eq.
      repeat split; assumption. }
  destruct (Query_arkauth r) as [raw |]; [| apply Htail].
  destruct (parseArkAuth raw) as [[aa [e |]] | msg]; cbn [call bind returning snd fst];
    [| apply Htail | discriminate].
  intros [= <- <-]. split; [reflexivity |]. split; [reflexivity |]. right. right.
  cbn [http_Error newResponseWriter served Status]. split; [reflexivity |].
  split; [| split; reflexivity]. exists StatusBadRequest. split; [reflexivity | cbn; tauto].
Qed.

(** The deposit check takes [n * R] in [int64].  For a pay-as-you-go
    contract that is cached, not expired and not replayed, whose rate fits in
    [int64], with the limiter granting the call and the claim store taking
    the write, [paidTier] accepts exactly when the deposit is set and is at
    least the wrapped product, which for a large nonce can be far below
    [n * R]. *)
Theorem paidTier_deposit_gate_int64 (p : State M C) (now : Z) (aa : ArkAuth.t)
    (remoteAddr : string) (contract : Contract.t) :
  let key := strconv.FormatUint (ArkAuth.ContractId aa) in
  MemStore_Get (MemStore p) key = (contract, None) ->
  IsExpired contract (MemStore_GetHeight (MemStore p)) = false ->
  Contract.Type_ contract = PAY_AS_YOU_GO ->
  (ClaimStore_Has (ClaimStore p) key = true ->
   snd (ClaimStore_Get (ClaimStore p) key) = None /\
   Claim.Nonce (fst (ClaimStore_Get (ClaimStore p) key)) < ArkAuth.Nonce aa) ->
  is_int64 (Contract.Rate contract) ->
  fst (isRateLimited (visitors p) now (Contract.Id contract) key
         (Contract.QueriesPerMinute contract)) = false ->
  (exists c, ClaimStore_Set (ClaimStore p) (committedClaim p aa) = inl c) ->
  ((exists p', paidTier p now aa remoteAddr = Return (StatusOK, None, p')) <->
   exists D, Contract.Deposit contract = Some D /\
             wrap_int64 (ArkAuth.Nonce aa * Contract.Rate contract) <= D).
Proof.
  intros key Hc Hexp Hty Hclaim HR. subst key.
  assert (Hrate : Int_Int64 (R := Z * option error * State M C) (Contract.Rate contract) =
                  Continue (Contract.Rate contract)).
  { unfold Int_Int64. destruct HR as [Hlo Hhi].
    apply Z.leb_le in Hlo, Hhi. now rewrite Hlo, Hhi. }
  unfold paidTier, committedClaim, mul_int64. rewrite Hc. cbn [bind returning].
  rewrite Hexp, Hty. cbn [bind returning].
  destruct (ClaimStore_Has (ClaimStore p) _);
    [destruct (Hclaim eq_refl) as [Herr Hlt];
     destruct (ClaimStore_Get (ClaimStore p) _) as [cl err]; cbn [fst snd] in Herr, Hlt |- *;
     subst err; apply Z.leb_gt in Hlt; rewrite Hlt | clear Hclaim];
    cbn [bind returning]; rewrite Hrate; cbn [bind].
  all: intros Hlim (c & Hset);
    destruct (Contract.Deposit contract) as [D |]; cbn [bind returning];
    [ destruct (D <? wrap_int64 (ArkAuth.Nonce aa * Contract.Rate contract)) eqn:Hcmp;
      cbn [bind returning];
      [ apply Z.ltb_lt in Hcmp; split; [intros (p' & [=]) | intros (D' & [= <-] & Hle); lia]
      | apply Z.ltb_ge in Hcmp;
        destruct (isRateLimited _ _ _ _ _) as [limited v]; cbn [fst] in Hlim; subst limited;
        cbn [bind returning ClaimStore with_visitors]; rewrite Hset; cbn [bind returning];
        split; intros _; eauto ]
    | split; [intros (p' & [=]) | intros (D & [=] & _)] ].
Qed.

End MorePipelineProperties.

(** ** The further properties on the example gateway *)

Lemma paidTier_codes_witness :
  let p := gateway contract7 {["7" := claim9]} in
  paidTier p t0 (ArkAuth.mk 7 "" 3 [Byte.x01]) "10.0.0.2" =
  Return (StatusBadRequest, Some (Errorf "bad nonce (3/9)"), p) /\
  In StatusBadRequest [StatusOK; StatusBadRequest; StatusPaymentRequired;
                       StatusTooManyRequests; StatusInternalServerError] /\
  (StatusBadRequest = StatusBadRequest \/ StatusBadRequest = StatusPaymentRequired -> p = p).
Proof.
  cbv zeta.
  assert (Hrun : paidTier (gateway contract7 {["7" := claim9]}) t0
                   (ArkAuth.mk 7 "" 3 [Byte.x01]) "10.0.0.2" =
                 Return (StatusBadRequest, Some (Errorf "bad nonce (3/9)"),
                         gateway contract7 {["7" := claim9]})) by (vm_compute; reflexivity).
  split; [exact Hrun |].
  exact (paidTier_codes _ _ _ _ _ _ _ Hrun).
Defined.

Lemma paidTier_returns_witness :
  let p := gateway contract7 ∅ in
  let aa := ArkAuth.mk 7 "" 1 [Byte.x01] in
  is_int64 (Contract.Rate (fst (MemStore_Get (MemStore p)
                                  (strconv.FormatUint (ArkAuth.ContractId aa))))) /\
  exists res, paidTier p t0 aa "10.0.0.2" = Return res.
Proof.
  cbv zeta.
  assert (HR : is_int64 (Contract.Rate
                           (fst (MemStore_Get (MemStore (gateway contract7 ∅))
                                   (strconv.FormatUint
                                      (ArkAuth.ContractId (ArkAuth.mk 7 "" 1 [Byte.x01])))))))
    by (change (is_int64 10); apply int64_small; lia).
  split; [exact HR |].
  exact (paidTier_returns (gateway contract7 ∅) t0 (ArkAuth.mk 7 "" 1 [Byte.x01]) "10.0.0.2" HR).
Defined.

Lemma paidTier_deposit_gate_int64_witness :
  let c := Contract.mk "provider" 1 "client" "" PAY_AS_YOU_GO 0 1000 4 (Some 0) 0 7 10 STRICT 1 in
  let aa := ArkAuth.mk 7 "" (2 ^ 62) [Byte.x01] in
  MemStore_Get (MemStore (gateway c ∅)) "7" = (c, None) /\
  is_int64 (Contract.Rate c) /\
  wrap_int64 (ArkAuth.Nonce aa * Contract.Rate c) = 0 /\
  Contract.Deposit c = Some 0 /\ 0 < ArkAuth.Nonce aa * Contract.Rate c /\
  exists p', paidTier (gateway c ∅) t0 aa "10.0.0.2" = Return (StatusOK, None, p').
Proof.
  cbv zeta.
  set (c := Contract.mk "provider" 1 "client" "" PAY_AS_YOU_GO 0 1000 4 (Some 0) 0 7 10 STRICT 1).
  set (aa := ArkAuth.mk 7 "" (2 ^ 62) [Byte.x01]).
  assert (Hget : MemStore_Get (MemStore (gateway c ∅))
                   (strconv.FormatUint (ArkAuth.ContractId aa)) = (c, None))
    by (vm_compute; reflexivity).
  assert (Hexp : IsExpired c (MemStore_GetHeight (MemStore (gateway c ∅))) = false)
    by (vm_compute; reflexivity).
  assert (Hclaim : ClaimStore_Has (ClaimStore (gateway c ∅))
                     (strconv.FormatUint (ArkAuth.ContractId aa)) = true ->
                   snd (ClaimStore_Get (ClaimStore (gateway c ∅))
                          (strconv.FormatUint (ArkAuth.ContractId aa))) = None /\
                   Claim.Nonce (fst (ClaimStore_Get (ClaimStore (gateway c ∅))
                                       (strconv.FormatUint (ArkAuth.ContractId aa)))) <
                   ArkAuth.Nonce aa)
    by (intros H; vm_compute in H; discriminate H).
  assert (HR : is_int64 (Contract.Rate c)) by (change (is_int64 4); apply int64_small; lia).
  assert (Hlim : fst (isRateLimited (visitors (gateway c ∅)) t0 (Contract.Id c)
                        (strconv.FormatUint (ArkAuth.ContractId aa))
                        (Contract.QueriesPerMinute c)) = false) by (vm_compute; reflexivity).
  assert (Hset : exists s, ClaimStore_Set (ClaimStore (gateway c ∅))
                             (committedClaim (gateway c ∅) aa) = inl s)
    by (eexists; reflexivity).
  split; [exact Hget |]. split; [exact HR |]. split; [reflexivity |].
  split; [reflexivity |]. split; [reflexivity |].
  apply (proj2 (paidTier_deposit_gate_int64 (gateway c ∅) t0 aa "10.0.0.2" c
                  Hget Hexp eq_refl Hclaim HR Hlim Hset)).
  exists 0. split; [reflexivity | vm_compute; discriminate].
Defined.

Lemma auth_malformed_proof_witness :
  let r := mkRequest (Some "") "" "" "10.0.0.2" "/btc/status" in
  parseArkAuth "" = Return (ArkAuth.zero, Some (NumError "ParseUint" "" ErrSyntax)) /\
  auth (gateway contract7 ∅) t0 r =
  Return (http_Error newResponseWriter (NumError "ParseUint" "" ErrSyntax) StatusBadRequest,
          gateway contract7 ∅).
Proof.
  cbv zeta. split; [reflexivity |].
  exact (auth_malformed_proof (gateway contract7 ∅) t0
           (mkRequest (Some "") "" "" "10.0.0.2" "/btc/status") ""
           ArkAuth.zero (NumError "ParseUint" "" ErrSyntax) eq_refl eq_refl).
Defined.

Lemma auth_ineligible_witness :
  let p := gateway contract7 ∅ in
  let r := mkRequest None "" "" "10.0.0.2" "/btc/status" in
  carries r ArkAuth.zero /\
  MemStore_Get (MemStore p) "0" = (Contract.zero, Some (External "not found")) /\
  auth p t0 r = Return (freePath newResponseWriter p t0 "10.0.0.2") /\
  served (fst (freePath newResponseWriter p t0 "10.0.0.2")) = true.
Proof.
  cbv zeta.
  set (p := gateway contract7 ∅).
  set (r := mkRequest None "" "" "10.0.0.2" "/btc/status").
  assert (Hc : carries r ArkAuth.zero) by reflexivity.
  assert (Hget : MemStore_Get (MemStore p) (strconv.FormatUint (ArkAuth.ContractId ArkAuth.zero)) =
                 (Contract.zero, Some (External "not found"))) by (vm_compute; reflexivity).
  assert (Hpol : contractPolicy p t0 newResponseWriter Contract.zero (getRemoteAddr r) =
                 Continue (newResponseWriter, p)) by reflexivity.
  split; [exact Hc |]. split; [exact Hget |].
  split; [| vm_compute; reflexivity].
  exact (auth_ineligible p t0 r ArkAuth.zero Contract.zero (Some (External "not found"))
           newResponseWriter p Hc Hget Hpol eq_refl).
Defined.

Lemma auth_paid_path_witness :
  let p := gateway contract7 ∅ in
  let r := mkRequest (Some "7:1:01") "" "" "10.0.0.2" "/btc/status" in
  let aa := ArkAuth.mk 7 "" 1 [Byte.x01] in
  carries r aa /\ eligible p aa contract7 None = true /\
  exists p2,
    paidTier p t0 aa "10.0.0.2" = Return (StatusOK, None, p2) /\
    auth p t0 r = Return (ServeHTTP (Header_Set newResponseWriter "tier" "paid"), p2).
Proof.
  cbv zeta.
  set (p := gateway contract7 ∅).
  set (r := mkRequest (Some "7:1:01") "" "" "10.0.0.2" "/btc/status").
  set (aa := ArkAuth.mk 7 "" 1 [Byte.x01]).
  assert (Hc : carries r aa) by reflexivity.
  assert (Hget : MemStore_Get (MemStore p) (strconv.FormatUint (ArkAuth.ContractId aa)) =
                 (contract7, None)) by (vm_compute; reflexivity).
  assert (Hpol : contractPolicy p t0 newResponseWriter contract7 (getRemoteAddr r) =
                 Continue (newResponseWriter, p)) by (vm_compute; reflexivity).
  assert (Hel : eligible p aa contract7 None = true) by reflexivity.
  assert (Hpath : nth_error (strings.Split (URL_Path r) "/") 1 = Some "btc") by reflexivity.
  destruct (paidTier p t0 aa (getRemoteAddr r)) as [[[code err] p2] | msg] eqn:Hpaid;
    [| vm_compute in Hpaid; discriminate Hpaid].
  assert (Hok : code = StatusOK /\ err = None).
  { vm_compute in Hpaid. injection Hpaid as <- <- _. split; reflexivity. }
  destruct Hok as [-> ->].
  split; [exact Hc |]. split; [exact Hel |]. exists p2. split; [exact Hpaid |].
  exact (auth_paid_path p t0 r aa contract7 newResponseWriter p p2 "btc" StatusOK None
           Hc Hget Hpol Hel Hpath eq_refl Hpaid).
Defined.

Lemma auth_service_mismatch_panics :
  let p := gateway open7 ∅ in
  let r := mkRequest (Some "7:1:01") "" "" "10.0.0.2" "/btc/status" in
  NewService "btc" = (1, None) /\ Contract.Service open7 = 2 /\
  auth p t0 r = Panic "nil pointer dereference".
Proof.
  cbv zeta.
  set (p := gateway open7 ∅).
  set (r := mkRequest (Some "7:1:01") "" "" "10.0.0.2" "/btc/status").
  assert (Hc : carries r (ArkAuth.mk 7 "" 1 [Byte.x01])) by reflexivity.
  assert (Hget : MemStore_Get (MemStore p)
                   (strconv.FormatUint (ArkAuth.ContractId (ArkAuth.mk 7 "" 1 [Byte.x01]))) =
                 (open7, None)) by (vm_compute; reflexivity).
  assert (Hpol : contractPolicy p t0 newResponseWriter open7 (getRemoteAddr r) =
                 Continue (newResponseWriter, p)) by (vm_compute; reflexivity).
  assert (Hne : 1 <> Contract.Service open7) by (cbn; lia).
  split; [reflexivity |]. split; [reflexivity |].
  exact (auth_service_mismatch p t0 r (ArkAuth.mk 7 "" 1 [Byte.x01]) open7 newResponseWriter p
           "btc" 1 Hc Hget Hpol eq_refl eq_refl eq_refl Hne).
Defined.

Lemma contractPolicy_trusts_real_ip_witness :
  let p := gatewayAt 1 contract7 ∅ allowlist7 in
  let r := mkRequest None "10.0.0.1" "" "6.6.6.6" "/btc/status" in
  RemoteAddr r = "6.6.6.6" /\
  whitelisted (RemoteAddr r) ["10.0.0.1"] = false /\
  ContractConfigStore p !! Contract.Id contract7 =
  Some (mkContractConfiguration (mkCORs [] [] []) ["10.0.0.1"] 0) /\
  contractPolicy p t0 newResponseWriter contract7 (getRemoteAddr r) =
  Continue (newResponseWriter, p).
Proof.
  cbv zeta.
  assert (Hconf : ContractConfigStore (gatewayAt 1 contract7 ∅ allowlist7) !!
                    Contract.Id contract7 =
                  Some (mkContractConfiguration (mkCORs [] [] []) ["10.0.0.1"] 0))
    by (vm_compute; reflexivity).
  split; [reflexivity |]. split; [reflexivity |]. split; [exact Hconf |].
  exact (proj1 (proj2 (proj2
           (contractPolicy_trusts_real_ip (gatewayAt 1 contract7 ∅ allowlist7) t0
              newResponseWriter contract7
              (mkContractConfiguration (mkCORs [] [] []) ["10.0.0.1"] 0)
              (mkRequest None "10.0.0.1" "" "6.6.6.6" "/btc/status")
              ltac:(cbn; lia) Hconf ltac:(discriminate) ltac:(left; reflexivity))))).
Defined.

Lemma auth_outcomes_witness :
  let p := gateway contract7 ∅ in
  let r := mkRequest (Some "7:11:01") "" "" "10.0.0.2" "/btc/status" in
  paidTier p t0 (ArkAuth.mk 7 "" 11 [Byte.x01]) "10.0.0.2" =
  Return (StatusPaymentRequired, Some (Errorf "contract spent"), p) /\
  exists w' p',
    auth p t0 r = Return (w', p') /\
    served w' = true /\ Status w' = None /\ Header w' !! "tier" = Some "free" /\
    MemStore p' = MemStore p /\ ClaimStore p' = ClaimStore p.
Proof.
  cbv zeta.
  set (p := gateway contract7 ∅).
  set (r := mkRequest (Some "7:11:01") "" "" "10.0.0.2" "/btc/status").
  split; [vm_compute; reflexivity |].
  destruct (auth p t0 r) as [[w' p'] | msg] eqn:Hrun; [| vm_compute in Hrun; discriminate Hrun].
  exists w', p'. split; [reflexivity |].
  destruct (auth_outcomes p t0 r w' p' Hrun) as (_ & _ & [Hpaid | [Hfree | Hrefused]]).
  - exfalso. destruct Hpaid as (_ & _ & Ht). vm_compute in Hrun.
    injection Hrun as <- _. vm_compute in Ht. discriminate Ht.
  - tauto.
  - exfalso. destruct Hrefused as (Hv & _). vm_compute in Hrun.
    injection Hrun as <- _. discriminate Hv.
Defined.
